(** * anchor-kit: the decimal helpers

    A shallow embedding of the two [DecimalUtils] variants of anchor-kit:

    - the scaled-integer variant ([toDecimalValue], [add], [subtract],
      [multiply], [divide], [applyFee], [fromBigInt], [fromString],
      [compare]), which stores a decimal as a [bigint] with a scale;
    - the [big.js] variant of [src/utils/decimal.ts] ([DecimalUtils.divide],
      [DecimalUtils.applyFee], ...), which delegates to the [big.js] library;
    - the error handler of [errors/errorHandler.ts] ([errorHandler],
      [handleAnchorError] and the error classes), which shapes the response
      to a thrown value.

    Conventions of the embedding:

    - a JavaScript string is a [string]; each [ascii] stands for one UTF-16
      code unit, so the inputs covered are the strings whose code units are
      below 256 (the decimal grammar accepts no other character);
    - a [bigint] is a [Z]; bigint [/] and [%] truncate toward zero
      ([Z.quot], [Z.rem]);
    - a [number] that holds a length, an index or a scale is a [Z]
      ([indexOf] answers [-1] when the character is absent).  The helpers
      accept [number | string]; a number is first turned into its string, and
      only the string case is embedded;
    - [throw] is the [Throw] constructor of [result]. *)

From Stdlib Require Import ZArith String Ascii Bool Lia.
From Stdlib Require Import DecimalString DecimalFacts DecimalPos.

Local Open Scope string_scope.
Local Open Scope Z_scope.

(** ** Exceptions *)

Inductive exn : Type :=
| InvalidDecimalFormat (input : string)   (* Error(`Invalid decimal format: ${str}`) *)
| DivisionByZero                          (* Error('Division by zero') *)
| SyntaxError                             (* BigInt(...) on a malformed literal *)
| BigError (msg : string).                (* an Error thrown by big.js *)

Inductive result (A : Type) : Type :=
| Ok (a : A)
| Throw (e : exn).

Arguments Ok {A} a.
Arguments Throw {A} e.

Definition bind {A B : Type} (m : result A) (k : A -> result B) : result B :=
  match m with
  | Ok a => k a
  | Throw e => Throw e
  end.

Declare Scope js_scope.
Delimit Scope js_scope with js.
Notation "'let*' x ':=' m 'in' k" := (bind m (fun x => k))
  (at level 10, x name, m at level 100, k at level 200) : js_scope.
Local Open Scope js_scope.

(** ** JavaScript string primitives *)

Module JS.

Definition length (s : string) : Z := Z.of_nat (String.length s).

Fixpoint take (n : nat) (s : string) : string :=
  match n, s with
  | O, _ => ""
  | S _, "" => ""
  | S k, String c t => String c (take k t)
  end.

(** [s.slice(0, e)]: a negative end counts from the end of the string. *)
Definition slice0 (s : string) (e : Z) : string :=
  let len := length s in
  let k := if e <? 0 then Z.max (len + e) 0 else Z.min e len in
  take (Z.to_nat k) s.

(** [s.indexOf(c)], [-1] when [c] does not occur. *)
Fixpoint indexOf (c : ascii) (s : string) : Z :=
  match s with
  | "" => -1
  | String d t =>
      if Ascii.eqb d c then 0
      else let i := indexOf c t in if i <? 0 then -1 else i + 1
  end.

(** [s.replace(c, '')] with a string pattern: the first occurrence only. *)
Fixpoint remove_first (c : ascii) (s : string) : string :=
  match s with
  | "" => ""
  | String d t => if Ascii.eqb d c then t else String d (remove_first c t)
  end.

Fixpoint repeat (c : ascii) (n : nat) : string :=
  match n with
  | O => ""
  | S k => String c (repeat c k)
  end.

(** [s.padStart(n, '0')] *)
Definition padStart0 (s : string) (n : Z) : string :=
  repeat "0" (Z.to_nat (n - length s)) ++ s.

Fixpoint rev_acc (s acc : string) : string :=
  match s with
  | "" => acc
  | String c t => rev_acc t (String c acc)
  end.

Definition rev (s : string) : string := rev_acc s "".

Fixpoint drop_while (p : ascii -> bool) (s : string) : string :=
  match s with
  | "" => ""
  | String c t => if p c then drop_while p t else s
  end.

(** WhiteSpace and LineTerminator code units below 256:
    TAB, LF, VT, FF, CR, SP and NBSP. *)
Definition is_space (c : ascii) : bool :=
  let n := nat_of_ascii c in
  (Nat.leb 9 n && Nat.leb n 13) || Nat.eqb n 32 || Nat.eqb n 160.

(** [s.trim()] *)
Definition trim (s : string) : string :=
  rev (drop_while is_space (rev (drop_while is_space s))).

Definition is_zero (c : ascii) : bool := Ascii.eqb c "0".

(** [s.replace(/0+$/, '')]: the match, if any, is the whole run of zeros
    that ends the string. *)
Definition strip_trailing_zeros (s : string) : string :=
  rev (drop_while is_zero (rev s)).

Definition is_digit (c : ascii) : bool :=
  let n := nat_of_ascii c in Nat.leb 48 n && Nat.leb n 57.

Fixpoint all (p : ascii -> bool) (s : string) : bool :=
  match s with
  | "" => true
  | String c t => p c && all p t
  end.

Definition is_empty (s : string) : bool :=
  match s with "" => true | _ => false end.

(** the part of [s] before, and after, the first character of the class
    [p]; the whole string, and the empty one, when there is none *)
Fixpoint before (p : ascii -> bool) (s : string) : string :=
  match s with
  | "" => ""
  | String c t => if p c then "" else String c (before p t)
  end.

Fixpoint after (p : ascii -> bool) (s : string) : string :=
  match s with
  | "" => ""
  | String c t => if p c then t else after p t
  end.

Definition is_dot (c : ascii) : bool := Ascii.eqb c ".".

(** *** Regular expressions

    The fragment of the pattern language used by the helpers, matched
    against the whole subject (the patterns are anchored with [^] and [$]),
    by Brzozowski derivatives. *)

Inductive regex : Type :=
| Void                          (* matches nothing *)
| Eps                           (* matches the empty string *)
| Cls (p : ascii -> bool)       (* one character of a class *)
| Seq (r1 r2 : regex)
| Alt (r1 r2 : regex)
| Star (r : regex).

Definition Chr (c : ascii) : regex := Cls (Ascii.eqb c).
Definition Opt (r : regex) : regex := Alt r Eps.       (* r? *)
Definition Plus (r : regex) : regex := Seq r (Star r). (* r+ *)
Definition Digit : regex := Cls is_digit.              (* \d *)

Fixpoint nullable (r : regex) : bool :=
  match r with
  | Void => false
  | Eps => true
  | Cls _ => false
  | Seq r1 r2 => nullable r1 && nullable r2
  | Alt r1 r2 => nullable r1 || nullable r2
  | Star _ => true
  end.

Fixpoint deriv (c : ascii) (r : regex) : regex :=
  match r with
  | Void => Void
  | Eps => Void
  | Cls p => if p c then Eps else Void
  | Seq r1 r2 =>
      if nullable r1
      then Alt (Seq (deriv c r1) r2) (deriv c r2)
      else Seq (deriv c r1) r2
  | Alt r1 r2 => Alt (deriv c r1) (deriv c r2)
  | Star r1 => Seq (deriv c r1) (Star r1)
  end.

(** [/^r$/.test(s)] *)
Fixpoint test (r : regex) (s : string) : bool :=
  match s with
  | "" => nullable r
  | String c t => test (deriv c r) t
  end.

(** the language of a pattern *)
Inductive matches : regex -> string -> Prop :=
| m_eps : matches Eps ""
| m_cls p c : p c = true -> matches (Cls p) (String c "")
| m_seq r1 r2 s1 s2 :
    matches r1 s1 -> matches r2 s2 -> matches (Seq r1 r2) (s1 ++ s2)
| m_alt_l r1 r2 s : matches r1 s -> matches (Alt r1 r2) s
| m_alt_r r1 r2 s : matches r2 s -> matches (Alt r1 r2) s
| m_star_nil r : matches (Star r) ""
| m_star_cons r s1 s2 :
    matches r s1 -> matches (Star r) s2 -> matches (Star r) (s1 ++ s2).

(** *** bigint *)

Definition digit_value (c : ascii) : Z := Z.of_nat (nat_of_ascii c) - 48.

Fixpoint digits_value_acc (acc : Z) (s : string) : Z :=
  match s with
  | "" => acc
  | String c t => digits_value_acc (10 * acc + digit_value c) t
  end.

(** the value of a string of decimal digits *)
Definition digits_value (s : string) : Z := digits_value_acc 0 s.

Definition hex_value (c : ascii) : option Z :=
  let n := nat_of_ascii c in
  if Nat.leb 48 n && Nat.leb n 57 then Some (Z.of_nat n - 48)
  else if Nat.leb 97 n && Nat.leb n 102 then Some (Z.of_nat n - 87)
  else if Nat.leb 65 n && Nat.leb n 70 then Some (Z.of_nat n - 55)
  else None.

(** the value of a non-empty string of digits in base [b], [b <= 16] *)
Fixpoint radix_value_acc (b acc : Z) (s : string) : option Z :=
  match s with
  | "" => Some acc
  | String c t =>
      match hex_value c with
      | Some d => if d <? b then radix_value_acc b (b * acc + d) t else None
      | None => None
      end
  end.

Definition radix_value (b : Z) (s : string) : result Z :=
  match s with
  | "" => Throw SyntaxError
  | _ => match radix_value_acc b 0 s with
         | Some v => Ok v
         | None => Throw SyntaxError
         end
  end.

Definition decimal_value (s : string) : result Z :=
  if negb (is_empty s) && all is_digit s then Ok (digits_value s)
  else Throw SyntaxError.

(** the base announced by the letter of a [0x], [0o] or [0b] prefix *)
Definition radix_of (c : ascii) : option Z :=
  if Ascii.eqb c "x" || Ascii.eqb c "X" then Some 16
  else if Ascii.eqb c "o" || Ascii.eqb c "O" then Some 8
  else if Ascii.eqb c "b" || Ascii.eqb c "B" then Some 2
  else None.

Definition radix_literal (t : string) : option (Z * string) :=
  match t with
  | String c (String d u) =>
      if Ascii.eqb c "0" then option_map (fun b => (b, u)) (radix_of d)
      else None
  | _ => None
  end.

(** [BigInt(s)] on a string (StringToBigInt): surrounding white space is
    ignored, the empty string is [0n], a decimal literal may carry a sign,
    and [0x], [0o] and [0b] literals (unsigned) are accepted. *)
Definition BigInt (s : string) : result Z :=
  match trim s with
  | "" => Ok 0
  | String c u as t =>
      if Ascii.eqb c "-" then let* v := decimal_value u in Ok (- v)
      else if Ascii.eqb c "+" then decimal_value u
      else match radix_literal t with
           | Some (b, v) => radix_value b v
           | None => decimal_value t
           end
  end.

(** [v.toString()] for a bigint [v] *)
Definition toString (v : Z) : string := NilZero.string_of_int (Z.to_int v).

(** [BigInt(10 ** n)]: [10 ** n] is computed in floating point and is the
    exact power of ten for [0 <= n <= 22]; every exponent the helpers
    reach is at most 14. *)
Definition pow10 (n : Z) : Z := 10 ^ n.

End JS.

(** ** The scaled-integer variant *)

(** [interface DecimalValue { value: bigint; scale: number }] *)
Record DecimalValue : Type := { value : Z; scale : Z }.

(** [toDecimalValue(input)], string case.

    The [while (valueStr.length < scale)] loop prepends one ['0'] per
    iteration, that is [scale - valueStr.length] of them when that is
    positive; [valueStr || '0'] replaces the empty string by ['0']. *)
Definition toDecimalValue (str : string) : result DecimalValue :=
  let dotIndex := JS.indexOf "." str in
  let '(scale, valueStr) :=
    if negb (dotIndex =? -1) then
      let scale := JS.length str - dotIndex - 1 in
      let scale := Z.min scale 7 in
      (scale,
       JS.slice0 (JS.remove_first "." str) (JS.length str - dotIndex - 1 + scale))
    else (0, str) in
  let valueStr := JS.padStart0 valueStr scale in
  let* v := JS.BigInt (if JS.is_empty valueStr then "0" else valueStr) in
  Ok {| value := v; scale := scale |}.

(** [fromBigInt(value, scale)] *)
Definition fromBigInt (value : Z) (scale : Z) : string :=
  if scale =? 0 then JS.toString value
  else
    let divisor := JS.pow10 scale in
    let whole := Z.quot value divisor in
    let fraction := Z.rem value divisor in
    let fractionStr :=
      JS.strip_trailing_zeros (JS.padStart0 (JS.toString fraction) scale) in
    if JS.is_empty fractionStr then JS.toString whole
    else JS.toString whole ++ "." ++ fractionStr.

Definition add (a b : string) : result string :=
  let* decA := toDecimalValue a in
  let* decB := toDecimalValue b in
  let maxScale := Z.max (scale decA) (scale decB) in
  let scaleDiff := maxScale - scale decA in
  let scaleDiffB := maxScale - scale decB in
  let valueA := value decA * JS.pow10 scaleDiff in
  let valueB := value decB * JS.pow10 scaleDiffB in
  let result := valueA + valueB in
  Ok (fromBigInt result maxScale).

Definition subtract (a b : string) : result string :=
  let* decA := toDecimalValue a in
  let* decB := toDecimalValue b in
  let maxScale := Z.max (scale decA) (scale decB) in
  let scaleDiff := maxScale - scale decA in
  let scaleDiffB := maxScale - scale decB in
  let valueA := value decA * JS.pow10 scaleDiff in
  let valueB := value decB * JS.pow10 scaleDiffB in
  let result := valueA - valueB in
  Ok (fromBigInt result maxScale).

Definition multiply (a b : string) : result string :=
  let* decA := toDecimalValue a in
  let* decB := toDecimalValue b in
  let result := value decA * value decB in
  let scale := scale decA + scale decB in
  Ok (fromBigInt result scale).

Definition divide (a b : string) : result string :=
  let* decA := toDecimalValue a in
  let* decB := toDecimalValue b in
  if value decB =? 0 then Throw DivisionByZero
  else
    let scale := 7 in
    let scaledA := value decA * JS.pow10 scale in
    let result := Z.quot scaledA (value decB) in
    Ok (fromBigInt result scale).

Definition applyFee (amount feePercent : string) : result string :=
  let* product := multiply amount feePercent in
  let* feeDecimal := divide product "100" in
  Ok feeDecimal.

(** [/^-?\d*\.?\d+$/] *)
Definition decimal_format : JS.regex :=
  JS.Seq (JS.Opt (JS.Chr "-"))
    (JS.Seq (JS.Star JS.Digit)
       (JS.Seq (JS.Opt (JS.Chr ".")) (JS.Plus JS.Digit))).

Definition fromString (str : string) : result string :=
  let trimmed := JS.trim str in
  if negb (JS.test decimal_format trimmed) then Throw (InvalidDecimalFormat str)
  else Ok trimmed.

Definition compare (a b : string) : result Z :=
  let* decA := toDecimalValue a in
  let* decB := toDecimalValue b in
  let maxScale := Z.max (scale decA) (scale decB) in
  let scaleDiff := maxScale - scale decA in
  let scaleDiffB := maxScale - scale decB in
  let valueA := value decA * JS.pow10 scaleDiff in
  let valueB := value decB * JS.pow10 scaleDiffB in
  if valueA <? valueB then Ok (-1)
  else if valueA >? valueB then Ok 1
  else Ok 0.

(** ** The parsing rule of the specification

    A second definition of parsing, written from the words of the
    specification (section 4.1), to be compared with [toDecimalValue]:
    the pattern asks for at least one digit before an optional fraction,
    the scale is the number of fractional digits capped at 7, and the
    magnitude is the integer read from the digits once the decimal point is
    removed and the fraction cut after its 7th digit. *)

Module Spec.

Record ScaledDecimal : Type := { magnitude : Z; scale : Z }.

(** optional [-], digits, optional [.] followed by digits *)
Definition pattern : JS.regex :=
  JS.Seq (JS.Opt (JS.Chr "-"))
    (JS.Seq (JS.Plus JS.Digit)
       (JS.Opt (JS.Seq (JS.Chr ".") (JS.Plus JS.Digit)))).

Definition parse (text : string) : result ScaledDecimal :=
  let trimmed := JS.trim text in
  if negb (JS.test pattern trimmed) then Throw (InvalidDecimalFormat text)
  else
    let '(negative, digits) :=
      match trimmed with
      | String "-" t => (true, t)
      | _ => (false, trimmed)
      end in
    let fraction := JS.take 7 (JS.after JS.is_dot digits) in
    let m := JS.digits_value (JS.before JS.is_dot digits ++ fraction) in
    Ok {| magnitude := if negative then - m else m;
          scale := JS.length fraction |}.

End Spec.

(** ** big.js *)

(** Modelled from the spec: [big.js], the arbitrary-precision decimal type
    that [src/utils/decimal.ts] imports, is an external dependency whose
    source is not among the repository's files.  Its operations are embedded
    by the behaviour the library documents, with its defaults [Big.DP = 20]
    and [Big.RM = 1] (round half up): [plus], [minus] and [times] are exact,
    [div] rounds the quotient to [Big.DP] decimal places, [toFixed()] prints
    normal notation, and [toFixed(dp)] rounds to [dp] places and pads with
    zeros.

    A [Big] is kept by its value, [unscaled / 10 ^ places], with no trailing
    zero among the fractional digits (big.js keeps its digit array without
    trailing zeros). *)

Module BigJs.

Record Big : Type := { unscaled : Z; places : nat }.

Definition DP : nat := 20.
Definition MAX_DP : Z := 1000000.

(** drop the trailing fractional zeros *)
Fixpoint strip (m : Z) (k : nat) : Big :=
  match k with
  | O => {| unscaled := m; places := O |}
  | S k' =>
      if m mod 10 =? 0 then strip (m / 10) k'
      else {| unscaled := m; places := k |}
  end.

Definition is_e (c : ascii) : bool := Ascii.eqb c "e" || Ascii.eqb c "E".
Definition is_sign (c : ascii) : bool := Ascii.eqb c "+" || Ascii.eqb c "-".

(** [NUMERIC]: an optional minus sign; then digits, optionally followed
    by a point and further digits, or a point followed by digits; then an
    optional exponent, [e] or [E] with an optional sign and digits. *)
Definition NUMERIC : JS.regex :=
  JS.Seq (JS.Opt (JS.Chr "-"))
    (JS.Seq
       (JS.Alt
          (JS.Seq (JS.Plus JS.Digit)
             (JS.Opt (JS.Seq (JS.Chr ".") (JS.Star JS.Digit))))
          (JS.Seq (JS.Chr ".") (JS.Plus JS.Digit)))
       (JS.Opt (JS.Seq (JS.Cls is_e)
                  (JS.Seq (JS.Opt (JS.Cls is_sign)) (JS.Plus JS.Digit))))).

(** the exponent part, [+n.slice(i + 1)] *)
Definition exponent (s : string) : Z :=
  match s with
  | String "-" t => - JS.digits_value t
  | String "+" t => JS.digits_value t
  | _ => JS.digits_value s
  end.

(** [new Big(n)] for a string [n] *)
Definition parse (n : string) : result Big :=
  if negb (JS.test NUMERIC n) then Throw (BigError "[big.js] Invalid number")
  else
    let '(negative, n) :=
      match n with
      | String "-" t => (true, t)
      | _ => (false, n)
      end in
    let mantissa := JS.before is_e n in
    let e := exponent (JS.after is_e n) in
    let fraction := JS.after JS.is_dot mantissa in
    let digits := JS.digits_value (JS.before JS.is_dot mantissa ++ fraction) in
    let m := if negative then - digits else digits in
    let shift := JS.length fraction - e in
    if shift >=? 0 then Ok (strip m (Z.to_nat shift))
    else Ok {| unscaled := m * 10 ^ (- shift); places := O |}.

Definition of_Z (n : Z) : Big := {| unscaled := n; places := O |}.

Definition pow10n (k : nat) : Z := 10 ^ Z.of_nat k.

Definition plus (x y : Big) : Big :=
  let k := Nat.max (places x) (places y) in
  strip (unscaled x * pow10n (k - places x)
         + unscaled y * pow10n (k - places y)) k.

Definition minus (x y : Big) : Big :=
  let k := Nat.max (places x) (places y) in
  strip (unscaled x * pow10n (k - places x)
         - unscaled y * pow10n (k - places y)) k.

Definition times (x y : Big) : Big :=
  strip (unscaled x * unscaled y) (places x + places y).

(** [n / d] rounded to the nearest integer, a tie away from zero
    (rounding mode 1) *)
Definition round_half_up (n d : Z) : Z :=
  Z.sgn n * Z.sgn d * ((2 * Z.abs n + Z.abs d) / (2 * Z.abs d)).

Definition div (x y : Big) : result Big :=
  if unscaled y =? 0 then Throw (BigError "[big.js] Division by zero")
  else
    Ok (strip (round_half_up (unscaled x * pow10n (DP + places y))
                             (unscaled y * pow10n (places x))) DP).

(** normal notation of [m / 10 ^ k], all [k] fractional digits printed *)
Definition notation (negative : bool) (m : Z) (k : nat) : string :=
  let a := Z.abs m in
  let body :=
    match k with
    | O => JS.toString a
    | _ => JS.toString (a / pow10n k) ++ "."
           ++ JS.padStart0 (JS.toString (a mod pow10n k)) (Z.of_nat k)
    end in
  if negative then "-" ++ body else body.

(** [x.toFixed()] *)
Definition toFixed (x : Big) : string :=
  notation (unscaled x <? 0) (unscaled x) (places x).

(** [x.toFixed(dp)]: the sign is that of [x] before rounding *)
Definition toFixed_dp (x : Big) (dp : Z) : result string :=
  if (dp <? 0) || (dp >? MAX_DP)
  then Throw (BigError "[big.js] Invalid decimal places")
  else
    let d := Z.to_nat dp in
    let m :=
      if Nat.leb (places x) d then unscaled x * pow10n (d - places x)
      else round_half_up (unscaled x) (pow10n (places x - d)) in
    Ok (notation (unscaled x <? 0) m d).

End BigJs.

(** ** The big.js variant, [src/utils/decimal.ts]

    [applyFee] takes its percentage as a [number]; [new Big(n)] reads a
    number through its string [String(n)], and the embedding takes that
    string ([1.5] is ["1.5"], [1e-19] is ["1e-19"]). *)

Module DecimalUtils.

Definition fromString (value : string) : result BigJs.Big := BigJs.parse value.

Definition add (a b : string) : result string :=
  let* x := BigJs.parse a in
  let* y := BigJs.parse b in
  Ok (BigJs.toFixed (BigJs.plus x y)).

Definition subtract (a b : string) : result string :=
  let* x := BigJs.parse a in
  let* y := BigJs.parse b in
  Ok (BigJs.toFixed (BigJs.minus x y)).

Definition multiply (a b : string) : result string :=
  let* x := BigJs.parse a in
  let* y := BigJs.parse b in
  Ok (BigJs.toFixed (BigJs.times x y)).

Definition divide (a b : string) (precision : Z) : result string :=
  let* x := BigJs.parse a in
  let* y := BigJs.parse b in
  let* q := BigJs.div x y in
  BigJs.toFixed_dp q precision.

Definition applyFee (amount feePercentage : string) : result string :=
  let* bigAmount := BigJs.parse amount in
  let* fee := BigJs.parse feePercentage in
  let* bigFee := BigJs.div fee (BigJs.of_Z 100) in
  Ok (BigJs.toFixed (BigJs.times bigAmount (BigJs.plus (BigJs.of_Z 1) bigFee))).

End DecimalUtils.

(** ** The error handler, [errors/errorHandler.ts]

    An error object is a record of its class, the one [instanceof] tests,
    and of its properties; the properties are public and assignable, so the
    record does not tie them to the class.  A property that is absent and
    one that holds [undefined] are both [None].  [process.env.NODE_ENV] is a
    parameter of the handler. *)

Module Errors.

(** [enum ErrorType] *)
Inductive ErrorType : Type :=
| SEP_PROTOCOL
| RAIL_ERROR
| VALIDATION_ERROR
| DATABASE_ERROR
| NETWORK_ERROR
| UNKNOWN.

(** a value of type [unknown]: what a [details] record holds, and what may
    be thrown that is not an [Error]; the handler copies such a value or
    drops it, and never looks into it *)
Inductive unknown : Type :=
| Undefined
| Str (s : string)
| Num (n : Z).

(** [Record<string, unknown>] *)
Definition record : Type := list (string * unknown).

(** a plain [Error] *)
Module Error.
Record t : Type := { message : string }.
End Error.

(** the classes of the module *)
Inductive class : Type :=
| AnchorErrorClass
| SepProtocolErrorClass
| RailErrorClass
| ValidationErrorClass
| DatabaseErrorClass
| NetworkErrorClass.

(** an instance of [AnchorError] or of one of its subclasses;
    [originalError] is the property that [RailError], [DatabaseError] and
    [NetworkError] declare *)
Module AnchorError.
Record t : Type := {
  cls : class;
  message : string;
  type : ErrorType;
  statusCode : Z;
  code : option string;
  details : option record;
  originalError : option Error.t
}.
End AnchorError.

(** [new AnchorError(message, type, statusCode = 500, code?, details?)] *)
Definition new_AnchorError (message : string) (type : ErrorType)
    (statusCode : option Z) (code : option string) (details : option record)
    : AnchorError.t :=
  {| AnchorError.cls := AnchorErrorClass;
     AnchorError.message := message;
     AnchorError.type := type;
     AnchorError.statusCode :=
       match statusCode with Some n => n | None => 500 end;
     AnchorError.code := code;
     AnchorError.details := details;
     AnchorError.originalError := None |}.

(** [new SepProtocolError(message, code?, details?)] *)
Definition new_SepProtocolError (message : string) (code : option string)
    (details : option record) : AnchorError.t :=
  {| AnchorError.cls := SepProtocolErrorClass;
     AnchorError.message := message;
     AnchorError.type := SEP_PROTOCOL;
     AnchorError.statusCode := 400;
     AnchorError.code := code;
     AnchorError.details := details;
     AnchorError.originalError := None |}.

(** [new RailError(message, originalError?)] *)
Definition new_RailError (message : string) (originalError : option Error.t)
    : AnchorError.t :=
  {| AnchorError.cls := RailErrorClass;
     AnchorError.message := message;
     AnchorError.type := RAIL_ERROR;
     AnchorError.statusCode := 502;
     AnchorError.code := Some "RAIL_ERROR";
     AnchorError.details := None;
     AnchorError.originalError := originalError |}.

(** [new ValidationError(message, field?)]: the details are [{ field }] *)
Definition new_ValidationError (message : string) (field : option string)
    : AnchorError.t :=
  {| AnchorError.cls := ValidationErrorClass;
     AnchorError.message := message;
     AnchorError.type := VALIDATION_ERROR;
     AnchorError.statusCode := 400;
     AnchorError.code := Some "VALIDATION_ERROR";
     AnchorError.details :=
       Some (cons ("field",
                   match field with Some f => Str f | None => Undefined end)
                  nil);
     AnchorError.originalError := None |}.

(** [new DatabaseError(message, originalError?)] *)
Definition new_DatabaseError (message : string) (originalError : option Error.t)
    : AnchorError.t :=
  {| AnchorError.cls := DatabaseErrorClass;
     AnchorError.message := message;
     AnchorError.type := DATABASE_ERROR;
     AnchorError.statusCode := 500;
     AnchorError.code := Some "DATABASE_ERROR";
     AnchorError.details := None;
     AnchorError.originalError := originalError |}.

(** [new NetworkError(message, originalError?)] *)
Definition new_NetworkError (message : string) (originalError : option Error.t)
    : AnchorError.t :=
  {| AnchorError.cls := NetworkErrorClass;
     AnchorError.message := message;
     AnchorError.type := NETWORK_ERROR;
     AnchorError.statusCode := 503;
     AnchorError.code := Some "NETWORK_ERROR";
     AnchorError.details := None;
     AnchorError.originalError := originalError |}.

(** [interface ErrorResponse], by its field [error] *)
Module ErrorResponse.
Record t : Type := {
  type : ErrorType;
  message : string;
  code : option string;
  details : option record
}.
End ErrorResponse.

(** what the handler returns: [{ statusCode, response }] *)
Module Handled.
Record t : Type := { statusCode : Z; response : ErrorResponse.t }.
End Handled.

(** what may be thrown: an [AnchorError], another [Error], or a value that
    is not an [Error] *)
Inductive thrown : Type :=
| Anchor (error : AnchorError.t)
| Plain (error : Error.t)
| NotAnError (value : unknown).

(** [process.env.NODE_ENV === 'production'] *)
Definition isProduction (NODE_ENV : option string) : bool :=
  match NODE_ENV with
  | Some v => String.eqb v "production"
  | None => false
  end.

(** [error instanceof RailError] *)
Definition instanceof_RailError (error : AnchorError.t) : bool :=
  match AnchorError.cls error with
  | RailErrorClass => true
  | _ => false
  end.

Definition handleAnchorError (NODE_ENV : option string) (error : AnchorError.t)
    : Handled.t :=
  let isProduction := isProduction NODE_ENV in
  match AnchorError.type error with
  | SEP_PROTOCOL =>
      {| Handled.statusCode := AnchorError.statusCode error;
         Handled.response :=
           {| ErrorResponse.type := AnchorError.type error;
              ErrorResponse.message := AnchorError.message error;
              ErrorResponse.code := AnchorError.code error;
              ErrorResponse.details := AnchorError.details error |} |}
  | RAIL_ERROR =>
      if isProduction && instanceof_RailError error then
        {| Handled.statusCode := AnchorError.statusCode error;
           Handled.response :=
             {| ErrorResponse.type := AnchorError.type error;
                ErrorResponse.message := "Payment rail service unavailable";
                ErrorResponse.code := AnchorError.code error;
                ErrorResponse.details := None |} |}
      else
        {| Handled.statusCode := AnchorError.statusCode error;
           Handled.response :=
             {| ErrorResponse.type := AnchorError.type error;
                ErrorResponse.message := AnchorError.message error;
                ErrorResponse.code := AnchorError.code error;
                ErrorResponse.details :=
                  if instanceof_RailError error && negb isProduction then
                    Some (cons ("originalError",
                                match AnchorError.originalError error with
                                | Some original => Str (Error.message original)
                                | None => Undefined
                                end) nil)
                  else None |} |}
  | VALIDATION_ERROR =>
      {| Handled.statusCode := AnchorError.statusCode error;
         Handled.response :=
           {| ErrorResponse.type := AnchorError.type error;
              ErrorResponse.message := AnchorError.message error;
              ErrorResponse.code := AnchorError.code error;
              ErrorResponse.details := AnchorError.details error |} |}
  | DATABASE_ERROR | NETWORK_ERROR =>
      if isProduction then
        {| Handled.statusCode := AnchorError.statusCode error;
           Handled.response :=
             {| ErrorResponse.type := AnchorError.type error;
                ErrorResponse.message := "Service temporarily unavailable";
                ErrorResponse.code := None;
                ErrorResponse.details := None |} |}
      else
        {| Handled.statusCode := AnchorError.statusCode error;
           Handled.response :=
             {| ErrorResponse.type := AnchorError.type error;
                ErrorResponse.message := AnchorError.message error;
                ErrorResponse.code := AnchorError.code error;
                ErrorResponse.details :=
                  match AnchorError.originalError error with
                  | Some original =>
                      Some (cons ("originalError",
                                  Str (Error.message original)) nil)
                  | None => None
                  end |} |}
  | UNKNOWN =>
      {| Handled.statusCode := 500;
         Handled.response :=
           {| ErrorResponse.type := UNKNOWN;
              ErrorResponse.message := "An internal server error occurred";
              ErrorResponse.code := None;
              ErrorResponse.details := None |} |}
  end.

Definition errorHandler (NODE_ENV : option string) (error : thrown) : Handled.t :=
  match error with
  | Anchor error => handleAnchorError NODE_ENV error
  | Plain _ =>
      {| Handled.statusCode := 500;
         Handled.response :=
           {| ErrorResponse.type := UNKNOWN;
              ErrorResponse.message := "An internal server error occurred";
              ErrorResponse.code := None;
              ErrorResponse.details := None |} |}
  | NotAnError _ =>
      {| Handled.statusCode := 500;
         Handled.response :=
           {| ErrorResponse.type := UNKNOWN;
              ErrorResponse.message := "An unexpected error occurred";
              ErrorResponse.code := None;
              ErrorResponse.details := None |} |}
  end.

End Errors.

(** ** Shapes of decimal strings *)

Definition digits (s : string) : Prop := JS.all JS.is_digit s = true.

(** an optional [-], digits (possibly none), an optional [.], and at least
    one digit *)
Definition decimal_shape (t : string) : Prop :=
  exists sign ip dot fp,
    t = sign ++ ip ++ dot ++ fp /\
    (sign = "" \/ sign = "-") /\ digits ip /\
    (dot = "" \/ dot = ".") /\ digits fp /\ fp <> "".

(** every character that the pattern [r] can consume satisfies [P] *)
Fixpoint draws_from (P : ascii -> bool) (r : JS.regex) : Prop :=
  match r with
  | JS.Void | JS.Eps => True
  | JS.Cls p => forall c, p c = true -> P c = true
  | JS.Seq r1 r2 | JS.Alt r1 r2 => draws_from P r1 /\ draws_from P r2
  | JS.Star r1 => draws_from P r1
  end.

(** a [Big] with no trailing zero among its fractional digits *)
Definition canonical (x : BigJs.Big) : Prop :=
  BigJs.places x = O \/ BigJs.unscaled x mod 10 <> 0.

(** [x] is the decimal [n / 10 ^ k] *)
Definition represents (x : BigJs.Big) (n : Z) (k : nat) : Prop :=
  BigJs.unscaled x * BigJs.pow10n k = n * BigJs.pow10n (BigJs.places x).

(** a string without a decimal point *)
Definition no_point (s : string) : Prop :=
  JS.all (fun c => negb (JS.is_dot c)) s = true.

(** the sign of a printed number, and the number it stands for *)
Definition sign_of (negative : bool) : string := if negative then "-" else "".
Definition signed (negative : bool) (v : Z) : Z := if negative then - v else v.

(** * Properties *)

(** ** Strings *)

Lemma append_empty_r (s : string) : s ++ "" = s.
Proof. induction s as [|c s IH]; simpl; [reflexivity | now rewrite IH]. Qed.

Lemma append_assoc (s1 s2 s3 : string) : (s1 ++ s2) ++ s3 = s1 ++ s2 ++ s3.
Proof. induction s1 as [|c s1 IH]; simpl; [reflexivity | now rewrite IH]. Qed.

Lemma append_eq_empty (s1 s2 : string) : s1 ++ s2 = "" -> s1 = "" /\ s2 = "".
Proof. destruct s1; simpl; [auto | discriminate]. Qed.

Lemma all_append p (s1 s2 : string) :
  JS.all p (s1 ++ s2) = JS.all p s1 && JS.all p s2.
Proof.
  induction s1 as [|c s1 IH]; simpl; [reflexivity|].
  now rewrite IH, andb_assoc.
Qed.

(** ** The pattern matcher decides the language of the pattern *)

Section Matcher.
Import JS.

Lemma nullable_matches r : nullable r = true -> matches r "".
Proof.
  induction r; simpl; intros H; try discriminate.
  - constructor.
  - apply andb_true_iff in H as [H1 H2].
    change "" with ("" ++ ""). constructor; auto.
  - apply orb_true_iff in H as [H|H]; [apply m_alt_l | apply m_alt_r]; auto.
  - constructor.
Qed.

Lemma matches_nullable r s : matches r s -> s = "" -> nullable r = true.
Proof.
  induction 1; simpl; intros E; try reflexivity; try discriminate.
  - apply append_eq_empty in E as [-> ->].
    rewrite IHmatches1, IHmatches2; reflexivity.
  - rewrite IHmatches; auto.
  - rewrite IHmatches; auto using orb_true_r.
Qed.

Lemma deriv_matches c r : forall s, matches (deriv c r) s -> matches r (String c s).
Proof.
  induction r; simpl; intros s H.
  - inversion H.
  - inversion H.
  - destruct (p c) eqn:E; inversion H; subst. now constructor.
  - destruct (nullable r1) eqn:N.
    + inversion H; subst.
      * match goal with M : matches (Seq _ _) _ |- _ => inversion M; subst end.
        change (String c (?a ++ ?b)) with (String c a ++ b).
        constructor; auto.
      * change (String c s) with ("" ++ String c s).
        constructor; auto using nullable_matches.
    + inversion H; subst.
      change (String c (?a ++ ?b)) with (String c a ++ b).
      constructor; auto.
  - inversion H; subst; [apply m_alt_l | apply m_alt_r]; auto.
  - inversion H; subst.
    change (String c (?a ++ ?b)) with (String c a ++ b).
    constructor; auto.
Qed.

Lemma matches_deriv c r s' :
  matches r s' -> forall t, s' = String c t -> matches (deriv c r) t.
Proof.
  induction 1; simpl; intros t E; try discriminate.
  - injection E as -> <-. rewrite H. constructor.
  - destruct s1 as [|d s1]; simpl in E.
    + subst s2. rewrite (matches_nullable _ _ H eq_refl).
      apply m_alt_r; auto.
    + injection E as -> <-.
      destruct (nullable r1); [apply m_alt_l|]; constructor; auto.
  - apply m_alt_l; auto.
  - apply m_alt_r; auto.
  - destruct s1 as [|d s1]; simpl in E.
    + auto.
    + injection E as -> <-. constructor; auto.
Qed.

Lemma test_matches s : forall r, test r s = true <-> matches r s.
Proof.
  induction s as [|c s IH]; simpl; intros r.
  - split; [apply nullable_matches | intros; eapply matches_nullable; eauto].
  - rewrite IH. split; [apply deriv_matches | intros; eapply matches_deriv; eauto].
Qed.

Lemma matches_cls p s :
  matches (Cls p) s <-> exists c, s = String c "" /\ p c = true.
Proof.
  split.
  - inversion 1; subst; eauto.
  - intros (c & -> & H). now constructor.
Qed.

Lemma matches_chr c s : matches (Chr c) s <-> s = String c "".
Proof.
  unfold Chr. rewrite matches_cls. split.
  - intros (d & -> & H). now apply Ascii.eqb_eq in H as ->.
  - intros ->. exists c. split; [reflexivity | apply Ascii.eqb_refl].
Qed.

Lemma matches_opt r s : matches (Opt r) s <-> s = "" \/ matches r s.
Proof.
  unfold Opt. split.
  - inversion 1; subst; auto.
    match goal with M : matches Eps _ |- _ => inversion M end. auto.
  - intros [->|H]; [apply m_alt_r; constructor | apply m_alt_l; auto].
Qed.

Lemma matches_seq r1 r2 s :
  matches (Seq r1 r2) s <->
  exists s1 s2, s = s1 ++ s2 /\ matches r1 s1 /\ matches r2 s2.
Proof.
  split.
  - inversion 1; subst; eauto.
  - intros (s1 & s2 & -> & H1 & H2). now constructor.
Qed.

Lemma matches_star_digit s : matches (Star Digit) s <-> digits s.
Proof.
  unfold digits. split.
  - remember (Star Digit) as r eqn:E. induction 1; try discriminate.
    + reflexivity.
    + injection E as ->. rewrite all_append, IHmatches2 by reflexivity.
      apply matches_cls in H as (c & -> & Hc). simpl. now rewrite Hc.
  - induction s as [|c s IH]; simpl; intros H.
    + constructor.
    + apply andb_true_iff in H as [H1 H2].
      change (String c s) with (String c "" ++ s).
      constructor; [now constructor | auto].
Qed.

Lemma matches_plus_digit s : matches (Plus Digit) s <-> digits s /\ s <> "".
Proof.
  unfold Plus. rewrite matches_seq. split.
  - intros (s1 & s2 & -> & H1 & H2). apply matches_star_digit in H2.
    apply matches_cls in H1 as (c & -> & Hc).
    unfold digits in *. simpl. rewrite Hc, H2.
    split; [reflexivity | discriminate].
  - intros [H N]. destruct s as [|c s]; [congruence|].
    unfold digits in H. simpl in H. apply andb_true_iff in H as [Hc Hs].
    exists (String c ""), s. repeat split.
    + now constructor.
    + now apply matches_star_digit.
Qed.

Lemma matches_decimal_format t :
  matches decimal_format t <-> decimal_shape t.
Proof.
  unfold decimal_format, decimal_shape.
  rewrite matches_seq. split.
  - intros (sign & s1 & -> & Hs & H).
    apply matches_seq in H as (ip & s2 & -> & Hip & H).
    apply matches_seq in H as (dot & fp & -> & Hdot & Hfp).
    apply matches_opt in Hs. apply matches_opt in Hdot.
    apply matches_star_digit in Hip. apply matches_plus_digit in Hfp as [Hfp N].
    exists sign, ip, dot, fp. repeat split; auto.
    + destruct Hs as [|Hs]; [auto | right; now apply matches_chr].
    + destruct Hdot as [|Hd]; [auto | right; now apply matches_chr].
  - intros (sign & ip & dot & fp & -> & Hs & Hip & Hdot & Hfp & N).
    exists sign, (ip ++ dot ++ fp). repeat split.
    + apply matches_opt. destruct Hs as [->| ->]; [auto | right; now apply matches_chr].
    + apply matches_seq. exists ip, (dot ++ fp). repeat split.
      * now apply matches_star_digit.
      * apply matches_seq. exists dot, fp. repeat split.
        -- apply matches_opt.
           destruct Hdot as [->| ->]; [auto | right; now apply matches_chr].
        -- now apply matches_plus_digit.
Qed.

End Matcher.

(** ** [fromString] *)

Lemma fromString_unfold (str : string) :
  fromString str =
  if JS.test decimal_format (JS.trim str) then Ok (JS.trim str)
  else Throw (InvalidDecimalFormat str).
Proof. unfold fromString. now destruct (JS.test _ _). Qed.

Lemma test_decimal_format (t : string) :
  JS.test decimal_format t = true <-> decimal_shape t.
Proof. rewrite test_matches. apply matches_decimal_format. Qed.

(** C3, as the code has it: [fromString] throws its format error exactly
    when the trimmed input is not made of an optional minus sign, digits
    (possibly none), an optional decimal point and at least one digit, and
    it returns the trimmed input otherwise.  The empty string, ["abc"],
    ["1.2.3"], ["."], ["-"] and ["5."] are rejected; [".5"] is accepted. *)
Theorem fromString_rejects_exactly_malformed :
  (forall str : string,
      (fromString str = Throw (InvalidDecimalFormat str)
       <-> ~ decimal_shape (JS.trim str)) /\
      (fromString str = Ok (JS.trim str) <-> decimal_shape (JS.trim str))) /\
  fromString "" = Throw (InvalidDecimalFormat "") /\
  fromString "abc" = Throw (InvalidDecimalFormat "abc") /\
  fromString "1.2.3" = Throw (InvalidDecimalFormat "1.2.3") /\
  fromString "." = Throw (InvalidDecimalFormat ".") /\
  fromString "-" = Throw (InvalidDecimalFormat "-") /\
  fromString "5." = Throw (InvalidDecimalFormat "5.") /\
  fromString ".5" = Ok ".5".
Proof.
  split; [|repeat split; reflexivity].
  intros str. rewrite fromString_unfold, <- test_decimal_format.
  destruct (JS.test decimal_format (JS.trim str)); split; split;
    congruence.
Qed.

(** C3, counterexample: [".5"] has no digit before the decimal point, so it
    does not match the pattern of the claim, and [fromString] accepts it. *)
Lemma fromString_accepts_bare_fraction :
  JS.test Spec.pattern (JS.trim ".5") = false /\
  fromString ".5" = Ok ".5".
Proof. split; reflexivity. Qed.

(** ** String primitives *)

Section StringFacts.
Import JS.

Lemma length_append s1 s2 : length (s1 ++ s2) = length s1 + length s2.
Proof.
  unfold length. induction s1 as [|c s1 IH]; [reflexivity|].
  cbn [append String.length]. lia.
Qed.

Lemma length_nonneg s : 0 <= length s.
Proof. unfold length. lia. Qed.

Lemma length_String c s : length (String c s) = length s + 1.
Proof. unfold length. cbn [String.length]. lia. Qed.

Lemma indexOf_range c s : -1 <= indexOf c s < length s.
Proof.
  induction s as [|d s IH]; [cbn; unfold length; cbn; lia|].
  rewrite length_String. cbn [indexOf].
  destruct (Ascii.eqb d c); [pose proof (length_nonneg s); lia|].
  destruct (Z.ltb_spec (indexOf c s) 0); lia.
Qed.

Lemma indexOf_absent c s :
  all (fun d => negb (Ascii.eqb d c)) s = true -> indexOf c s = -1.
Proof.
  induction s as [|d s IH]; [reflexivity|]. cbn [all indexOf]. intros H.
  apply andb_true_iff in H as [H1 H2]. apply negb_true_iff in H1.
  now rewrite H1, (IH H2).
Qed.

Lemma indexOf_append c pre t :
  all (fun d => negb (Ascii.eqb d c)) pre = true ->
  indexOf c (pre ++ String c t) = length pre.
Proof.
  induction pre as [|d pre IH]; cbn [all indexOf append]; intros H.
  - now rewrite Ascii.eqb_refl.
  - apply andb_true_iff in H as [H1 H2]. apply negb_true_iff in H1.
    rewrite H1, (IH H2), length_String.
    destruct (Z.ltb_spec (length pre) 0); [pose proof (length_nonneg pre)|]; lia.
Qed.

Lemma remove_first_append c pre t :
  all (fun d => negb (Ascii.eqb d c)) pre = true ->
  remove_first c (pre ++ String c t) = pre ++ t.
Proof.
  induction pre as [|d pre IH]; cbn [all remove_first append]; intros H.
  - now rewrite Ascii.eqb_refl.
  - apply andb_true_iff in H as [H1 H2]. apply negb_true_iff in H1.
    now rewrite H1, (IH H2).
Qed.

Lemma take_all n : forall s, (String.length s <= n)%nat -> take n s = s.
Proof.
  induction n as [|n IH]; intros [|c s]; cbn; intros H; try reflexivity.
  - lia.
  - f_equal. apply IH. lia.
Qed.

Lemma length_take n : forall s,
  String.length (take n s) = Nat.min n (String.length s).
Proof.
  induction n as [|n IH]; intros [|c s]; cbn; try reflexivity.
  now rewrite IH.
Qed.

Lemma slice0_nonneg s e : 0 <= e -> slice0 s e = take (Z.to_nat e) s.
Proof.
  intros H. unfold slice0. destruct (Z.ltb_spec e 0); [lia|].
  destruct (Z.le_gt_cases e (length s)).
  - now rewrite Z.min_l.
  - rewrite Z.min_r by lia. unfold length in *. rewrite Nat2Z.id.
    rewrite !take_all; [reflexivity | lia | lia].
Qed.

Lemma padStart0_long s n : n <= length s -> padStart0 s n = s.
Proof.
  intros H. unfold padStart0.
  replace (Z.to_nat (n - length s)) with O by lia. reflexivity.
Qed.

Lemma all_take p n : forall s, all p s = true -> all p (take n s) = true.
Proof.
  induction n as [|n IH]; intros [|c s]; cbn; try reflexivity.
  intros H. apply andb_true_iff in H as [H1 H2]. now rewrite H1, IH.
Qed.

Lemma all_impl (p q : ascii -> bool) s :
  (forall c, p c = true -> q c = true) -> all p s = true -> all q s = true.
Proof.
  intros I. induction s as [|c s IH]; cbn; [reflexivity|]. intros H.
  apply andb_true_iff in H as [H1 H2]. now rewrite (I _ H1), IH.
Qed.

Lemma before_none p s : all (fun c => negb (p c)) s = true -> before p s = s.
Proof.
  induction s as [|c s IH]; cbn; [reflexivity|]. intros H.
  apply andb_true_iff in H as [H1 H2]. apply negb_true_iff in H1.
  now rewrite H1, IH.
Qed.

Lemma after_none p s : all (fun c => negb (p c)) s = true -> after p s = "".
Proof.
  induction s as [|c s IH]; cbn; [reflexivity|]. intros H.
  apply andb_true_iff in H as [H1 H2]. apply negb_true_iff in H1.
  now rewrite H1, IH.
Qed.

Lemma before_append p s c t :
  all (fun c => negb (p c)) s = true -> p c = true ->
  before p (s ++ String c t) = s.
Proof.
  intros H Hc. induction s as [|d s IH]; cbn in *; [now rewrite Hc|].
  apply andb_true_iff in H as [H1 H2]. apply negb_true_iff in H1.
  now rewrite H1, IH.
Qed.

Lemma after_append p s c t :
  all (fun c => negb (p c)) s = true -> p c = true ->
  after p (s ++ String c t) = t.
Proof.
  intros H Hc. induction s as [|d s IH]; cbn in *; [now rewrite Hc|].
  apply andb_true_iff in H as [H1 H2]. apply negb_true_iff in H1.
  now rewrite H1, IH.
Qed.

End StringFacts.

(** ** [toDecimalValue] *)

(** What [toDecimalValue] computes on a string with a decimal point: the
    scale is the length of the fraction capped at 7, and the digits kept are
    the first (fraction length + scale) characters of the string without its
    point. *)
Lemma toDecimalValue_point (pre fp : string) :
  no_point pre ->
  toDecimalValue (pre ++ "." ++ fp) =
  let scale := Z.min (JS.length fp) 7 in
  let valueStr := JS.take (Z.to_nat (JS.length fp + scale)) (pre ++ fp) in
  let* v := JS.BigInt (if JS.is_empty valueStr then "0" else valueStr) in
  Ok {| value := v; scale := scale |}.
Proof.
  intros H. unfold toDecimalValue.
  change ("." ++ fp) with (String "." fp).
  rewrite indexOf_append, remove_first_append by exact H.
  rewrite length_append, length_String.
  pose proof (length_nonneg pre) as Lp. pose proof (length_nonneg fp) as Lf.
  destruct (Z.eqb_spec (JS.length pre) (-1)); [lia|]. cbn [negb].
  replace (JS.length pre + (JS.length fp + 1) - JS.length pre - 1)
    with (JS.length fp) by lia.
  cbv zeta. rewrite slice0_nonneg by lia.
  rewrite padStart0_long; [reflexivity|].
  pose proof (length_append pre fp) as La.
  unfold JS.length in *. rewrite length_take. lia.
Qed.

Lemma toDecimalValue_no_point (s : string) :
  no_point s ->
  toDecimalValue s =
  let* v := JS.BigInt (if JS.is_empty s then "0" else s) in
  Ok {| value := v; scale := 0 |}.
Proof.
  intros H. unfold toDecimalValue. rewrite indexOf_absent by exact H.
  change (-1 =? -1) with true. cbv beta iota zeta delta [negb].
  rewrite padStart0_long by apply length_nonneg.
  reflexivity.
Qed.

(** ** [BigInt] on decimal literals *)

Section BigIntFacts.
Import JS.

Lemma rev_acc_append s : forall acc, rev_acc s acc = rev s ++ acc.
Proof.
  unfold rev. induction s as [|c s IH]; intros acc; cbn [rev_acc]; [reflexivity|].
  rewrite (IH (String c acc)), (IH (String c "")), append_assoc. reflexivity.
Qed.

Lemma rev_rev_acc s : forall acc, rev (rev_acc s acc) = rev acc ++ s.
Proof.
  induction s as [|c s IH]; intros acc; cbn [rev_acc].
  - now rewrite append_empty_r.
  - rewrite IH. unfold rev at 1. cbn [rev_acc].
    rewrite rev_acc_append, append_assoc. reflexivity.
Qed.

Lemma rev_involutive s : rev (rev s) = s.
Proof. unfold rev at 2. now rewrite rev_rev_acc. Qed.

Lemma all_rev_acc p s : forall acc, all p (rev_acc s acc) = all p s && all p acc.
Proof.
  induction s as [|c s IH]; intros acc; cbn [rev_acc all]; [reflexivity|].
  rewrite IH. cbn [all]. destruct (p c), (all p s), (all p acc); reflexivity.
Qed.

Lemma all_rev p s : all p (rev s) = all p s.
Proof. unfold rev. rewrite all_rev_acc. cbn [all]. apply andb_true_r. Qed.

Lemma drop_while_none p s :
  all (fun c => negb (p c)) s = true -> drop_while p s = s.
Proof.
  destruct s as [|c s]; [reflexivity|]. cbn [all drop_while]. intros H.
  apply andb_true_iff in H as [H _]. apply negb_true_iff in H. now rewrite H.
Qed.

Lemma trim_none s :
  all (fun c => negb (is_space c)) s = true -> trim s = s.
Proof.
  intros H. unfold trim. rewrite (drop_while_none _ s H).
  rewrite drop_while_none by now rewrite all_rev.
  apply rev_involutive.
Qed.

Lemma digit_not_space c : is_digit c = true -> negb (is_space c) = true.
Proof.
  unfold is_digit, is_space. intros H.
  apply andb_true_iff in H as [H1 H2]. apply Nat.leb_le in H1, H2.
  apply negb_true_iff.
  destruct (Nat.leb_spec 9 (nat_of_ascii c)), (Nat.leb_spec (nat_of_ascii c) 13),
    (Nat.eqb_spec (nat_of_ascii c) 32), (Nat.eqb_spec (nat_of_ascii c) 160);
    try reflexivity; lia.
Qed.

Lemma digit_neq c d : is_digit c = true -> is_digit d = false -> Ascii.eqb c d = false.
Proof. destruct (Ascii.eqb_spec c d); [subst; congruence | reflexivity]. Qed.

Lemma digits_no_space s : digits s -> all (fun c => negb (is_space c)) s = true.
Proof. apply all_impl, digit_not_space. Qed.

Lemma digits_no_point s : digits s -> no_point s.
Proof.
  apply all_impl. intros c H. apply negb_true_iff. now apply digit_neq.
Qed.

Lemma radix_of_digit d : is_digit d = true -> radix_of d = None.
Proof.
  intros H. unfold radix_of.
  now rewrite !(digit_neq d) by first [exact H | reflexivity].
Qed.

Lemma radix_literal_digits s : digits s -> radix_literal s = None.
Proof.
  destruct s as [|c [|d u]]; try reflexivity. unfold digits. cbn [all radix_literal].
  intros H. apply andb_true_iff in H as [_ H]. apply andb_true_iff in H as [H _].
  rewrite (radix_of_digit d H). now destruct (Ascii.eqb c "0").
Qed.

Lemma decimal_value_digits s :
  digits s -> s <> "" -> decimal_value s = Ok (digits_value s).
Proof.
  intros H N. unfold decimal_value. rewrite H.
  destruct s; [contradiction | reflexivity].
Qed.

Lemma BigInt_digits s : digits s -> s <> "" -> BigInt s = Ok (digits_value s).
Proof.
  intros H N. unfold BigInt. rewrite (trim_none s (digits_no_space s H)).
  destruct s as [|c u]; [contradiction|].
  assert (Hc : is_digit c = true).
  { unfold digits in H. cbn [all] in H. now apply andb_true_iff in H as [H _]. }
  rewrite !(digit_neq c) by first [exact Hc | reflexivity].
  rewrite (radix_literal_digits _ H). now apply decimal_value_digits.
Qed.

Lemma BigInt_minus_digits s :
  digits s -> s <> "" -> BigInt (String "-" s) = Ok (- digits_value s).
Proof.
  intros H N. unfold BigInt. rewrite trim_none.
  - rewrite Ascii.eqb_refl, (decimal_value_digits s H N). reflexivity.
  - cbn [all]. now rewrite (digits_no_space s H).
Qed.

(** the empty digit string reads as zero, as does the ['0'] that replaces it *)
Lemma BigInt_digits_or_zero s :
  digits s -> BigInt (if is_empty s then "0" else s) = Ok (digits_value s).
Proof.
  intros H. destruct s as [|c u]; [reflexivity|].
  cbn [is_empty]. apply BigInt_digits; [exact H | discriminate].
Qed.

End BigIntFacts.

(** ** [toDecimalValue] on well-formed decimals *)

Lemma toDecimalValue_integer (s : string) :
  digits s -> toDecimalValue s = Ok {| value := JS.digits_value s; scale := 0 |}.
Proof.
  intros H. rewrite toDecimalValue_no_point by now apply digits_no_point.
  cbv zeta. now rewrite BigInt_digits_or_zero.
Qed.

Lemma toDecimalValue_unsigned (ip fp : string) :
  digits ip -> digits fp ->
  toDecimalValue (ip ++ "." ++ fp) =
  Ok {| value :=
          JS.digits_value
            (JS.take (Z.to_nat (JS.length fp + Z.min (JS.length fp) 7)) (ip ++ fp));
        scale := Z.min (JS.length fp) 7 |}.
Proof.
  intros Hi Hf. rewrite toDecimalValue_point by now apply digits_no_point.
  cbv zeta. rewrite BigInt_digits_or_zero; [reflexivity|].
  apply all_take. unfold digits in *. now rewrite all_append, Hi, Hf.
Qed.

(** [toDecimalValue] reads the decimal it is given when the integer part is
    no longer than the fraction and the fraction has at most 7 digits. *)
Lemma toDecimalValue_short_integer_part (ip fp : string) :
  digits ip -> digits fp ->
  JS.length ip <= JS.length fp <= 7 ->
  toDecimalValue (ip ++ "." ++ fp) =
  Ok {| value := JS.digits_value (ip ++ fp); scale := JS.length fp |}.
Proof.
  intros Hi Hf L. rewrite toDecimalValue_unsigned by assumption.
  rewrite Z.min_l by lia. rewrite take_all; [reflexivity|].
  pose proof (length_append ip fp). unfold JS.length in *. lia.
Qed.

Lemma take_nonempty n s : (0 < n)%nat -> s <> "" -> JS.take n s <> "".
Proof. destruct n, s; cbn; intros; [lia | lia | congruence | discriminate]. Qed.

Lemma toDecimalValue_negative_integer (s : string) :
  digits s -> s <> "" ->
  toDecimalValue ("-" ++ s) = Ok {| value := - JS.digits_value s; scale := 0 |}.
Proof.
  intros H N. rewrite toDecimalValue_no_point.
  - cbn [append JS.is_empty]. cbv zeta. now rewrite BigInt_minus_digits.
  - unfold no_point. cbn [append JS.all]. now rewrite (digits_no_point s H).
Qed.

Lemma toDecimalValue_negative (ip fp : string) :
  digits ip -> digits fp -> fp <> "" ->
  toDecimalValue ("-" ++ ip ++ "." ++ fp) =
  Ok {| value :=
          - JS.digits_value
              (JS.take (Z.to_nat (JS.length fp + Z.min (JS.length fp) 7 - 1))
                 (ip ++ fp));
        scale := Z.min (JS.length fp) 7 |}.
Proof.
  intros Hi Hf N.
  rewrite <- append_assoc, toDecimalValue_point.
  2:{ unfold no_point. cbn [append JS.all]. now rewrite (digits_no_point ip Hi). }
  cbv zeta.
  assert (L : 1 <= JS.length fp).
  { destruct fp; [contradiction|]. rewrite length_String.
    pose proof (length_nonneg fp). lia. }
  replace (Z.to_nat (JS.length fp + Z.min (JS.length fp) 7))
    with (S (Z.to_nat (JS.length fp + Z.min (JS.length fp) 7 - 1))) by lia.
  cbn [append JS.take JS.is_empty].
  rewrite BigInt_minus_digits; [reflexivity | |].
  - apply all_take. unfold digits in *. now rewrite all_append, Hi, Hf.
  - apply take_nonempty; [lia|].
    intros E. apply append_eq_empty in E as [_ E]. contradiction.
Qed.

(** [toDecimalValue] returns on every string of the decimal format, with a
    scale between 0 and 7. *)
Lemma toDecimalValue_total (t : string) :
  decimal_shape t ->
  exists d, toDecimalValue t = Ok d /\ 0 <= scale d <= 7.
Proof.
  intros (sign & ip & dot & fp & -> & Hs & Hip & Hdot & Hfp & N).
  pose proof (length_nonneg fp) as L.
  assert (D : digits (ip ++ fp)).
  { unfold digits in *. now rewrite all_append, Hip, Hfp. }
  assert (NE : ip ++ fp <> "").
  { intros E. apply append_eq_empty in E as [_ E]. contradiction. }
  destruct Hs as [->| ->], Hdot as [->| ->]; cbn [append].
  - rewrite toDecimalValue_integer by exact D.
    eexists; split; [reflexivity | cbn; lia].
  - change (String "." fp) with ("." ++ fp).
    rewrite toDecimalValue_unsigned by assumption.
    eexists; split; [reflexivity | cbn; lia].
  - change (String "-" (ip ++ fp)) with ("-" ++ (ip ++ fp)).
    rewrite toDecimalValue_negative_integer by assumption.
    eexists; split; [reflexivity | cbn; lia].
  - change (String "-" (ip ++ String "." fp)) with ("-" ++ ip ++ "." ++ fp).
    rewrite toDecimalValue_negative by assumption.
    eexists; split; [reflexivity | cbn; lia].
Qed.

Lemma toDecimalValue_scale (str : string) (d : DecimalValue) :
  toDecimalValue str = Ok d -> 0 <= scale d <= 7.
Proof.
  unfold toDecimalValue.
  pose proof (indexOf_range "." str) as R.
  destruct (negb (JS.indexOf "." str =? -1)).
  - cbv zeta beta iota. destruct (JS.BigInt _); cbn [bind]; [|discriminate].
    intros [= <-]. cbn [scale]. lia.
  - cbv zeta beta iota. destruct (JS.BigInt _); cbn [bind]; [|discriminate].
    intros [= <-]. cbn [scale]. lia.
Qed.

Lemma BigInt_throws (s : string) (e : exn) :
  JS.BigInt s = Throw e -> e = SyntaxError.
Proof.
  assert (Dv : forall u, JS.decimal_value u = Throw e -> e = SyntaxError).
  { intros u. unfold JS.decimal_value. destruct (_ && _); congruence. }
  unfold JS.BigInt. destruct (JS.trim s) as [|c u]; [discriminate|].
  destruct (Ascii.eqb c "-").
  { destruct (JS.decimal_value u) eqn:E; cbn [bind]; [discriminate|].
    intros [= <-]. now apply (Dv u). }
  destruct (Ascii.eqb c "+"); [apply Dv|].
  destruct (JS.radix_literal _) as [[b v]|]; [|apply Dv].
  unfold JS.radix_value. destruct v; [congruence|].
  destruct (JS.radix_value_acc _ _ _); congruence.
Qed.

Lemma toDecimalValue_throws (str : string) (e : exn) :
  toDecimalValue str = Throw e -> e = SyntaxError.
Proof.
  unfold toDecimalValue.
  destruct (negb (JS.indexOf "." str =? -1)); cbv zeta beta iota;
    destruct (JS.BigInt _) eqn:E; cbn [bind]; try discriminate;
    intros [= <-]; eapply BigInt_throws; eassumption.
Qed.

(** ** Arithmetic on parsed operands *)

(** [add] is commutative, errors included: the only exception
    [toDecimalValue] raises is the syntax error of [BigInt]. *)
Lemma add_commutes (a b : string) : add a b = add b a.
Proof.
  unfold add.
  destruct (toDecimalValue a) as [da|ea] eqn:Ea,
           (toDecimalValue b) as [db|eb] eqn:Eb; cbn [bind]; try reflexivity.
  - now rewrite (Z.max_comm (scale db)), (Z.add_comm (value db * _)).
  - now rewrite (toDecimalValue_throws _ _ Ea), (toDecimalValue_throws _ _ Eb).
Qed.

(** [compare] answers -1, 0 or 1, and 0 on twice the same operand. *)
Lemma compare_three_valued (a b : string) (r : Z) :
  compare a b = Ok r -> r = -1 \/ r = 0 \/ r = 1.
Proof.
  unfold compare.
  destruct (toDecimalValue a), (toDecimalValue b); cbn [bind]; try discriminate.
  destruct (_ <? _); [intros [= <-]; auto|].
  destruct (_ >? _); intros [= <-]; auto.
Qed.

Lemma compare_same (a : string) (d : DecimalValue) :
  toDecimalValue a = Ok d -> compare a a = Ok 0.
Proof.
  intros E. unfold compare. rewrite E. cbn [bind].
  now rewrite Z.ltb_irrefl, Z.gtb_ltb, Z.ltb_irrefl.
Qed.

(** X10: [divide] raises its division error exactly when the digits
    [toDecimalValue] reads from the divisor are zero. *)
Lemma divide_throws_iff (a b : string) (da db : DecimalValue) :
  toDecimalValue a = Ok da -> toDecimalValue b = Ok db ->
  (divide a b = Throw DivisionByZero <-> value db = 0).
Proof.
  intros Ea Eb. unfold divide. rewrite Ea, Eb. cbn [bind].
  destruct (Z.eqb_spec (value db) 0); split; congruence.
Qed.

(** X11: on two strings of digits, [divide] answers the quotient of the two
    integers cut, toward zero, after 7 fractional digits *)
Lemma divide_integers (a b : string) :
  digits a -> digits b -> JS.digits_value b <> 0 ->
  divide a b
  = Ok (fromBigInt (Z.quot (JS.digits_value a * 10 ^ 7) (JS.digits_value b)) 7).
Proof.
  intros Ha Hb N. unfold divide.
  rewrite (toDecimalValue_integer a Ha), (toDecimalValue_integer b Hb).
  cbn [bind value]. now destruct (Z.eqb_spec (JS.digits_value b) 0).
Qed.

(** ** [fromBigInt] on whole numbers *)

Lemma all_repeat p c n : p c = true -> JS.all p (JS.repeat c n) = true.
Proof. intros H. induction n as [|n IH]; cbn; [reflexivity | now rewrite H, IH]. Qed.

Lemma drop_while_all p s : JS.all p s = true -> JS.drop_while p s = "".
Proof.
  induction s as [|c s IH]; cbn; [reflexivity|]. intros H.
  apply andb_true_iff in H as [H1 H2]. now rewrite H1, IH.
Qed.

Lemma strip_trailing_zeros_all s :
  JS.all JS.is_zero s = true -> JS.strip_trailing_zeros s = "".
Proof.
  intros H. unfold JS.strip_trailing_zeros.
  rewrite drop_while_all by now rewrite all_rev. reflexivity.
Qed.

(** a whole number, whatever its sign, is printed without a decimal point *)
Lemma fromBigInt_whole (w s : Z) :
  0 <= s -> fromBigInt (w * JS.pow10 s) s = JS.toString w.
Proof.
  intros Hs. unfold fromBigInt.
  destruct (Z.eqb_spec s 0) as [->|N].
  - change (JS.pow10 0) with 1. now rewrite Z.mul_1_r.
  - assert (P : JS.pow10 s <> 0).
    { unfold JS.pow10. apply Z.pow_nonzero; lia. }
    cbv zeta. rewrite Z.quot_mul, Z.rem_mul by exact P.
    rewrite strip_trailing_zeros_all; [reflexivity|].
    unfold JS.padStart0. rewrite all_append, all_repeat by reflexivity.
    reflexivity.
Qed.

(** X12: the product by ["0"] is ["0"] *)
Lemma multiply_zero (a : string) (d : DecimalValue) :
  toDecimalValue a = Ok d -> multiply a "0" = Ok "0".
Proof.
  intros E. unfold multiply. rewrite E. cbn [bind].
  change (toDecimalValue "0") with (Ok {| value := 0; scale := 0 |}).
  cbn [bind value scale]. apply toDecimalValue_scale in E.
  rewrite Z.mul_0_r. change 0 with (0 * JS.pow10 (scale d + 0)) at 1.
  rewrite fromBigInt_whole by lia. reflexivity.
Qed.

(** ** The expectations of the test suite

    The embedding gives the results the repository's tests expect, but for
    one: [subtract('3.14', '10')], expected to be ['-6.86']. *)

Lemma test_suite_add :
  add "1.23" "4.56" = Ok "5.79" /\ add "10" "5" = Ok "15" /\
  add "0.1" "0.2" = Ok "0.3" /\ add "1.2345" "6.789" = Ok "8.0235" /\
  add "1" "0.999" = Ok "1.999" /\ add "0" "5" = Ok "5" /\
  add "3.14" "0" = Ok "3.14" /\
  add "1.1234567" "0.0000001" = Ok "1.1234568" /\
  add "999999999999" "1" = Ok "1000000000000" /\
  add "0.0000001" "0.0000001" = Ok "0.0000002" /\
  (let* interest := multiply "100" "0.015" in add "100" interest) = Ok "101.5".
Proof. repeat split; vm_compute; reflexivity. Qed.

Lemma test_suite_subtract :
  subtract "10.50" "3.25" = Ok "7.25" /\ subtract "100" "50" = Ok "50" /\
  subtract "5" "10" = Ok "-5" /\ subtract "10" "0" = Ok "10".
Proof. repeat split; vm_compute; reflexivity. Qed.

Lemma test_suite_multiply :
  multiply "2.5" "4" = Ok "10" /\ multiply "1.5" "2" = Ok "3" /\
  multiply "0.5" "0.5" = Ok "0.25" /\ multiply "1.1" "1.1" = Ok "1.21" /\
  multiply "3.14" "2" = Ok "6.28" /\ multiply "10" "0" = Ok "0" /\
  multiply "0" "5" = Ok "0".
Proof. repeat split; vm_compute; reflexivity. Qed.

Lemma test_suite_divide :
  divide "10" "2" = Ok "5" /\ divide "1" "4" = Ok "0.25" /\
  divide "10" "3" = Ok "3.3333333" /\ divide "1" "3" = Ok "0.3333333" /\
  divide "10" "0" = Throw DivisionByZero.
Proof. repeat split; vm_compute; reflexivity. Qed.

Lemma test_suite_applyFee :
  applyFee "100" "1.5" = Ok "1.5" /\ applyFee "100" "10" = Ok "10" /\
  applyFee "1000" "2.5" = Ok "25" /\ applyFee "1" "1" = Ok "0.01".
Proof. repeat split; vm_compute; reflexivity. Qed.

Lemma test_suite_fromString :
  fromString "123.456" = Ok "123.456" /\ fromString "100" = Ok "100" /\
  fromString "0.001" = Ok "0.001" /\ fromString "  123.456  " = Ok "123.456" /\
  fromString "not-a-number" = Throw (InvalidDecimalFormat "not-a-number") /\
  fromString "12.34.56" = Throw (InvalidDecimalFormat "12.34.56").
Proof. repeat split; vm_compute; reflexivity. Qed.

Lemma test_suite_compare :
  compare "10" "10" = Ok 0 /\ compare "5.5" "5.50" = Ok 0 /\
  compare "5" "10" = Ok (-1) /\ compare "1.1" "1.2" = Ok (-1) /\
  compare "10" "5" = Ok 1 /\ compare "1.2" "1.1" = Ok 1.
Proof. repeat split; vm_compute; reflexivity. Qed.

(** ** Where [toDecimalValue] departs from the parsing rule *)

(** C1: [toDecimalValue] keeps, of the digits without the decimal point, as
    many as the fraction is long plus the scale, whatever the length of the
    integer part: ["12.5"] becomes 12 at scale 1 (the specification's parse
    gives 125), and the nine fractional digits of ["0.123456789"] are all
    kept at scale 7 (the specification's parse gives 1234567). *)
Theorem toDecimalValue_cuts_at_fraction_length :
  toDecimalValue "12.5" = Ok {| value := 12; scale := 1 |} /\
  Spec.parse "12.5" = Ok {| Spec.magnitude := 125; Spec.scale := 1 |} /\
  toDecimalValue "0.123456789" = Ok {| value := 123456789; scale := 7 |} /\
  Spec.parse "0.123456789"
  = Ok {| Spec.magnitude := 1234567; Spec.scale := 7 |}.
Proof. repeat split; vm_compute; reflexivity. Qed.

(** ** [fromBigInt] *)

(** C4: on a negative value with a fractional part, [fromBigInt] prints the
    sign of the remainder inside the fraction and, when the whole part is
    zero, no sign in front: -5 at scale 1 is printed ["0.-5"], and -686 at
    scale 2, the difference the test suite expects as ["-6.86"], is printed
    ["-6.-86"]. *)
Theorem fromBigInt_negative_fraction :
  fromBigInt (-5) 1 = "0.-5" /\
  fromBigInt (-686) 2 = "-6.-86" /\
  subtract "3.14" "10" = Ok "-6.-86".
Proof. repeat split; vm_compute; reflexivity. Qed.

(** ** Arithmetic *)

(** C2: [divide] multiplies the dividend's digits by [10 ^ 7] and divides by
    the divisor's digits without looking at either scale: 1 divided by 0.5
    is answered ["0.2"]; on two integers the quotient is the truncated one,
    10 divided by 3 being ["3.3333333"]. *)
Theorem divide_ignores_scales :
  divide "1" "0.5" = Ok "0.2" /\
  divide "1.5" "100" = Ok "0.15" /\
  divide "10" "3" = Ok "3.3333333".
Proof. repeat split; vm_compute; reflexivity. Qed.

(** C5: adding 0 to ["12.5"] and subtracting 0 again gives ["1.2"]; adding
    -1 to ["0.5"] gives ["0.-5"], which [subtract] cannot read back. *)
Theorem add_then_subtract_loses_operand :
  (let* sum := add "12.5" "0" in subtract sum "0") = Ok "1.2" /\
  add "0.5" "-1" = Ok "0.-5" /\
  (let* sum := add "0.5" "-1" in subtract sum "-1") = Throw SyntaxError.
Proof. repeat split; vm_compute; reflexivity. Qed.

(** C6: ["12.5"] and ["12.50"] compare as different, the first being read
    as 1.2; ["5.5"] and ["5.50"] compare equal. *)
Theorem compare_trailing_zero_differs :
  compare "12.5" "12.50" = Ok (-1) /\
  compare "5.5" "5.50" = Ok 0.
Proof. repeat split; vm_compute; reflexivity. Qed.

(** C7: the fee of 3 percent on 0.5 is answered ["0.15"], ten times the fee:
    the product ["1.5"] is divided by 100 without its scale; on a whole
    product the fee is right, 1.5 percent of 100 being ["1.5"]. *)
Theorem applyFee_ignores_product_scale :
  applyFee "0.5" "3" = Ok "0.15" /\
  multiply "0.5" "3" = Ok "1.5" /\
  applyFee "100" "1.5" = Ok "1.5".
Proof. repeat split; vm_compute; reflexivity. Qed.

(** C9: [divide] throws its division error on the divisor ["00.1"], which
    [toDecimalValue] reads as 0 and the specification's parse as 1. *)
Theorem divide_by_nonzero_throws :
  divide "1" "00.1" = Throw DivisionByZero /\
  toDecimalValue "00.1" = Ok {| value := 0; scale := 1 |} /\
  Spec.parse "00.1" = Ok {| Spec.magnitude := 1; Spec.scale := 1 |}.
Proof. repeat split; vm_compute; reflexivity. Qed.

(** ** The operations read their operands with [toDecimalValue] only *)

Ltac operand_throws a b :=
  destruct (toDecimalValue a) as [?da|?ea] eqn:?Ea; cbn [bind];
  [|intros [= <-]; eauto using toDecimalValue_throws];
  destruct (toDecimalValue b) as [?db|?eb] eqn:?Eb; cbn [bind];
  [|intros [= <-]; eauto using toDecimalValue_throws].

Lemma add_throws (a b : string) (e : exn) :
  add a b = Throw e -> e = SyntaxError.
Proof. unfold add. operand_throws a b. discriminate. Qed.

Lemma subtract_throws (a b : string) (e : exn) :
  subtract a b = Throw e -> e = SyntaxError.
Proof. unfold subtract. operand_throws a b. discriminate. Qed.

Lemma multiply_throws (a b : string) (e : exn) :
  multiply a b = Throw e -> e = SyntaxError.
Proof. unfold multiply. operand_throws a b. discriminate. Qed.

Lemma compare_throws (a b : string) (e : exn) :
  compare a b = Throw e -> e = SyntaxError.
Proof.
  unfold compare. operand_throws a b.
  destruct (_ <? _); [discriminate|]. destruct (_ >? _); discriminate.
Qed.

Lemma divide_throws (a b : string) (e : exn) :
  divide a b = Throw e ->
  (e = SyntaxError /\
   (toDecimalValue a = Throw SyntaxError \/ toDecimalValue b = Throw SyntaxError))
  \/ (e = DivisionByZero /\ exists db, toDecimalValue b = Ok db /\ value db = 0).
Proof.
  unfold divide.
  destruct (toDecimalValue a) as [da|ea] eqn:Ea; cbn [bind].
  2:{ intros [= <-]. left. rewrite (toDecimalValue_throws _ _ Ea). auto. }
  destruct (toDecimalValue b) as [db|eb] eqn:Eb; cbn [bind].
  2:{ intros [= <-]. left. rewrite (toDecimalValue_throws _ _ Eb). auto. }
  destruct (Z.eqb_spec (value db) 0); [|discriminate].
  intros [= <-]. right. eauto.
Qed.

(** [applyFee] divides by the literal ['100'], which is never read as 0 *)
Lemma applyFee_throws (amount feePercent : string) (e : exn) :
  applyFee amount feePercent = Throw e -> e = SyntaxError.
Proof.
  unfold applyFee.
  destruct (multiply amount feePercent) as [product|e'] eqn:M; cbn [bind].
  2:{ intros [= <-]. eapply multiply_throws; eassumption. }
  destruct (divide product "100") as [fee|e'] eqn:D; cbn [bind]; [discriminate|].
  intros [= <-].
  apply divide_throws in D as [[-> _]|[_ (db & E & Z0)]]; [reflexivity|].
  change (toDecimalValue "100") with (Ok {| value := 100; scale := 0 |}) in E.
  injection E as <-. discriminate.
Qed.

(** C10: on an input whose trimmed form passes the validation pattern,
    [fromString] returns that trimmed form as it is, with no
    canonicalization (["5.50"] and ["007"] come back unchanged); the
    arithmetic operations parse their operands themselves, with
    [toDecimalValue].  None of [add], [subtract], [multiply], [divide],
    [applyFee] and [compare] ever raises the format error of [fromString]:
    they raise the syntax error of [BigInt], and [divide] its division
    error.  Their outcome is a function of what [toDecimalValue] reads from
    the two operands, and whenever [toDecimalValue] reads both, [add],
    [subtract], [multiply] and [compare] return and [divide] returns unless
    the divisor is read as 0.  So each of them accepts ["5."], which
    [fromString] rejects, as either operand, and [add] accepts the
    hexadecimal literal ["0x10"]; on ["abc"] each fails with the syntax
    error. *)
Theorem fromString_returns_trimmed_input :
  (forall str : string,
      JS.test decimal_format (JS.trim str) = true ->
      fromString str = Ok (JS.trim str)) /\
  fromString "5.50" = Ok "5.50" /\
  fromString "007" = Ok "007" /\
  fromString "5." = Throw (InvalidDecimalFormat "5.") /\
  add "5." "1" = Ok "1" /\
  fromString "abc" = Throw (InvalidDecimalFormat "abc") /\
  add "abc" "1" = Throw SyntaxError /\
  (forall (a b : string) (e : exn),
      (add a b = Throw e -> e = SyntaxError) /\
      (subtract a b = Throw e -> e = SyntaxError) /\
      (multiply a b = Throw e -> e = SyntaxError) /\
      (divide a b = Throw e -> e = SyntaxError \/ e = DivisionByZero) /\
      (applyFee a b = Throw e -> e = SyntaxError) /\
      (compare a b = Throw e -> e = SyntaxError)) /\
  (forall a a' b b' : string,
      toDecimalValue a = toDecimalValue a' ->
      toDecimalValue b = toDecimalValue b' ->
      add a b = add a' b' /\
      subtract a b = subtract a' b' /\
      multiply a b = multiply a' b' /\
      divide a b = divide a' b' /\
      applyFee a b = applyFee a' b' /\
      compare a b = compare a' b') /\
  (forall (a b : string) (da db : DecimalValue),
      toDecimalValue a = Ok da -> toDecimalValue b = Ok db ->
      (exists r, add a b = Ok r) /\
      (exists r, subtract a b = Ok r) /\
      (exists r, multiply a b = Ok r) /\
      (exists r, compare a b = Ok r) /\
      (value db = 0 -> divide a b = Throw DivisionByZero) /\
      (value db <> 0 -> exists r, divide a b = Ok r)) /\
  (subtract "5." "1" = Ok "-1" /\
   multiply "5." "1" = Ok "0" /\
   divide "5." "1" = Ok "0" /\
   applyFee "5." "1" = Ok "0" /\
   compare "5." "1" = Ok (-1)) /\
  (add "1" "5." = Ok "1" /\
   subtract "1" "5." = Ok "1" /\
   multiply "1" "5." = Ok "0" /\
   divide "1" "5." = Throw DivisionByZero /\
   applyFee "1" "5." = Ok "0" /\
   compare "1" "5." = Ok 1) /\
  (subtract "abc" "1" = Throw SyntaxError /\
   multiply "abc" "1" = Throw SyntaxError /\
   divide "abc" "1" = Throw SyntaxError /\
   applyFee "abc" "1" = Throw SyntaxError /\
   compare "abc" "1" = Throw SyntaxError) /\
  (add "1" "abc" = Throw SyntaxError /\
   subtract "1" "abc" = Throw SyntaxError /\
   multiply "1" "abc" = Throw SyntaxError /\
   divide "1" "abc" = Throw SyntaxError /\
   applyFee "1" "abc" = Throw SyntaxError /\
   compare "1" "abc" = Throw SyntaxError) /\
  fromString "0x10" = Throw (InvalidDecimalFormat "0x10") /\
  add "0x10" "1" = Ok "17".
Proof.
  split. { intros str H. now rewrite fromString_unfold, H. }
  do 6 (split; [reflexivity|]).
  split.
  { intros a b e. repeat split.
    - apply add_throws.
    - apply subtract_throws.
    - apply multiply_throws.
    - intros H. apply divide_throws in H as [[-> _]|[-> _]]; auto.
    - apply applyFee_throws.
    - apply compare_throws. }
  split.
  { intros a a' b b' Ha Hb.
    unfold applyFee, add, subtract, multiply, divide, compare.
    rewrite Ha, Hb. repeat split. }
  split.
  { intros a b da db Ea Eb.
    unfold add, subtract, multiply, divide, compare.
    rewrite Ea, Eb. cbn [bind]. repeat split; eauto.
    - destruct (_ <? _); [eauto|]. destruct (_ >? _); eauto.
    - intros ->. reflexivity.
    - intros N. destruct (Z.eqb_spec (value db) 0); [contradiction | eauto]. }
  repeat split; vm_compute; reflexivity.
Qed.

(** C10 on the input ["  5.50 "] *)
Lemma fromString_returns_trimmed_input_witness :
  JS.test decimal_format (JS.trim "  5.50 ") = true /\
  fromString "  5.50 " = Ok "5.50".
Proof.
  split; [reflexivity|].
  apply (proj1 fromString_returns_trimmed_input "  5.50 "). reflexivity.
Defined.

(** ** Printing and reading back a bigint *)

Section ToStringFacts.
Import JS.

Lemma digits_string_of_uint d : digits (NilEmpty.string_of_uint d).
Proof. unfold digits. induction d; cbn; auto. Qed.

Lemma length_string_of_uint d :
  String.length (NilEmpty.string_of_uint d) = Decimal.nb_digits d.
Proof. induction d; cbn; auto. Qed.

Lemma digits_value_acc_uint d : forall acc,
  digits_value_acc (Z.pos acc) (NilEmpty.string_of_uint d)
  = Z.pos (Pos.of_uint_acc d acc).
Proof.
  induction d; intros acc; cbn [NilEmpty.string_of_uint digits_value_acc Pos.of_uint_acc];
    [reflexivity | ..];
    rewrite <- IHd; f_equal;
    match goal with
    | |- context [digit_value ?c] =>
        let v := eval vm_compute in (digit_value c) in
        change (digit_value c) with v
    end; lia.
Qed.

Lemma digits_value_uint d :
  digits_value (NilEmpty.string_of_uint d) = Z.of_N (Pos.of_uint d).
Proof.
  unfold digits_value.
  induction d; cbn [NilEmpty.string_of_uint digits_value_acc Pos.of_uint];
    [reflexivity | exact IHd | ..];
    cbn [Z.of_N]; rewrite <- digits_value_acc_uint; reflexivity.
Qed.

Lemma toString_pos p : toString (Z.pos p) = NilEmpty.string_of_uint (Pos.to_uint p).
Proof.
  unfold toString. cbn [Z.to_int NilZero.string_of_int NilZero.string_of_uint].
  pose proof (DecimalPos.Unsigned.to_uint_nonnil p).
  now destruct (Pos.to_uint p).
Qed.

Lemma toString_digits a : 0 <= a -> digits (toString a).
Proof.
  destruct a as [|p|p]; intros H; [reflexivity | | lia].
  rewrite toString_pos. apply digits_string_of_uint.
Qed.

Lemma toString_nonempty a : toString a <> "".
Proof.
  assert (N : forall d, d <> Decimal.Nil -> NilEmpty.string_of_uint d <> "").
  { intros [] Hd; cbn; congruence. }
  destruct a as [|p|p]; [discriminate | | discriminate].
  rewrite toString_pos. apply N, DecimalPos.Unsigned.to_uint_nonnil.
Qed.

Lemma toString_value a : 0 <= a -> digits_value (toString a) = a.
Proof.
  destruct a as [|p|p]; intros H; [reflexivity | | lia].
  now rewrite toString_pos, digits_value_uint, DecimalPos.Unsigned.of_to.
Qed.

(** the value of a digit string is linear in the accumulator *)
Lemma digits_value_acc_shift s : forall acc,
  digits_value_acc acc s = acc * 10 ^ length s + digits_value s.
Proof.
  unfold digits_value.
  induction s as [|c s IH]; intros acc; cbn [digits_value_acc].
  - unfold length. cbn. lia.
  - rewrite (IH (10 * acc + digit_value c)), (IH (10 * 0 + digit_value c)).
    rewrite length_String, Z.pow_add_r by (pose proof (length_nonneg s); lia).
    ring.
Qed.

Lemma digits_value_append s1 s2 :
  digits_value (s1 ++ s2) = digits_value s1 * 10 ^ length s2 + digits_value s2.
Proof.
  unfold digits_value at 1 2. generalize 0.
  induction s1 as [|c s1 IH]; intros acc; cbn [append digits_value_acc].
  - apply digits_value_acc_shift.
  - apply IH.
Qed.

Lemma digits_value_repeat_zero n : digits_value (repeat "0" n) = 0.
Proof. unfold digits_value. induction n; cbn; auto. Qed.

Lemma length_repeat c n : length (repeat c n) = Z.of_nat n.
Proof. unfold length. f_equal. induction n; cbn; auto. Qed.

Lemma digit_value_range c : is_digit c = true -> 0 <= digit_value c <= 9.
Proof.
  unfold is_digit, digit_value. intros H.
  apply andb_true_iff in H as [H1 H2]. apply Nat.leb_le in H1, H2. lia.
Qed.

Lemma digits_value_bound s : digits s -> 0 <= digits_value s < 10 ^ length s.
Proof.
  unfold digits. induction s as [|c s IH]; intros H.
  - cbn. lia.
  - cbn [all] in H. apply andb_true_iff in H as [Hc Hs].
    change (String c s) with (String c "" ++ s).
    rewrite digits_value_append, length_append.
    rewrite Z.pow_add_r by apply length_nonneg.
    change (length (String c "")) with 1. change (10 ^ 1) with 10.
    assert (0 <= digits_value (String c "") <= 9).
    { unfold digits_value. cbn [digits_value_acc].
      pose proof (digit_value_range c Hc). lia. }
    specialize (IH Hs). nia.
Qed.

(** the decimal numeral of a positive number starts with a non-zero digit,
    so a numeral of [n] digits is at least [10 ^ (n - 1)] *)
Lemma of_uint_acc_lower d : forall acc,
  Z.pos acc * 10 ^ Z.of_nat (Decimal.nb_digits d) <= Z.pos (Pos.of_uint_acc d acc).
Proof.
  induction d; intros acc; cbn [Decimal.nb_digits Pos.of_uint_acc];
    [cbn; lia | ..];
    (etransitivity; [|apply IHd]);
    rewrite Nat2Z.inj_succ, Z.pow_succ_r by lia;
    pose proof (Z.pow_pos_nonneg 10 (Z.of_nat (Decimal.nb_digits d)));
    nia.
Qed.

Lemma to_uint_normal p : Decimal.unorm (Pos.to_uint p) = Pos.to_uint p.
Proof.
  rewrite <- DecimalPos.Unsigned.to_of, DecimalPos.Unsigned.of_to. reflexivity.
Qed.

Lemma to_uint_lower p :
  10 ^ (Z.of_nat (Decimal.nb_digits (Pos.to_uint p)) - 1) <= Z.pos p.
Proof.
  pose proof (to_uint_normal p) as U.
  pose proof (DecimalPos.Unsigned.to_uint_nonzero p) as NZ.
  pose proof (DecimalPos.Unsigned.of_to p) as V.
  destruct (Pos.to_uint p) as [|l|l|l|l|l|l|l|l|l|l] eqn:E;
    cbn [Pos.of_uint] in V; try discriminate V;
    try (injection V as <-; cbn [Decimal.nb_digits];
         rewrite Nat2Z.inj_succ, Z.sub_1_r, Z.pred_succ;
         etransitivity; [|apply of_uint_acc_lower]; lia).
  exfalso. rewrite DecimalFacts.unorm_D0 in U.
  destruct l as [|l'|l'|l'|l'|l'|l'|l'|l'|l'|l'] eqn:El;
    [now apply NZ | ..];
    (assert (Hl : l <> Decimal.Nil) by (subst l; discriminate);
     subst l;
     pose proof (DecimalFacts.nb_digits_unorm _ Hl) as B;
     rewrite U in B; cbn [Decimal.nb_digits] in B; lia).
Qed.

Lemma toString_length a k :
  0 <= a < 10 ^ k -> 1 <= k -> length (toString a) <= k.
Proof.
  intros [H0 H1] Hk. destruct a as [|p|p]; [cbn; lia | | lia].
  rewrite toString_pos. unfold length. rewrite length_string_of_uint.
  pose proof (to_uint_lower p) as L.
  assert (10 ^ (Z.of_nat (Decimal.nb_digits (Pos.to_uint p)) - 1) < 10 ^ k) by lia.
  apply Z.pow_lt_mono_r_iff in H; lia.
Qed.

End ToStringFacts.

(** ** [toDecimalValue] against the parsing rule *)

Lemma leading_digit_unsigned (c : ascii) (s : string) :
  JS.is_digit c = true ->
  match String c s with
  | String "-" t => (true, t)
  | _ => (false, String c s)
  end = (false, String c s).
Proof.
  intros H. pose proof (digit_neq c "-" H eq_refl) as Q.
  destruct (Ascii.eqb_spec c "-"); [discriminate|].
  destruct c as [[] [] [] [] [] [] [] []]; try reflexivity; congruence.
Qed.

(** the parsing rule on an unsigned decimal with a fraction *)
Lemma spec_parse_unsigned (ip fp : string) :
  digits ip -> ip <> "" -> digits fp -> fp <> "" ->
  Spec.parse (ip ++ "." ++ fp)
  = Ok {| Spec.magnitude := JS.digits_value (ip ++ JS.take 7 fp);
          Spec.scale := Z.min (JS.length fp) 7 |}.
Proof.
  intros Hi Ni Hf Nf. unfold Spec.parse.
  rewrite trim_none.
  2:{ rewrite !all_append, (digits_no_space ip Hi), (digits_no_space fp Hf).
      reflexivity. }
  assert (T : JS.test Spec.pattern (ip ++ "." ++ fp) = true).
  { apply test_matches. unfold Spec.pattern.
    apply matches_seq. exists "", (ip ++ "." ++ fp).
    repeat split; [apply matches_opt; auto|].
    apply matches_seq. exists ip, ("." ++ fp).
    repeat split; [now apply matches_plus_digit|].
    apply matches_opt. right. apply matches_seq. exists ".", fp.
    repeat split; [now apply matches_chr | now apply matches_plus_digit]. }
  rewrite T. cbn [negb].
  destruct ip as [|c ip']; [contradiction|].
  assert (Hc : JS.is_digit c = true).
  { unfold digits in Hi. cbn [JS.all] in Hi. now apply andb_true_iff in Hi as [Hc _]. }
  cbn [append]. rewrite (leading_digit_unsigned c _ Hc).
  change (String c (ip' ++ String "." fp)) with (String c ip' ++ String "." fp).
  rewrite before_append, after_append
    by first [exact (digits_no_point _ Hi) | reflexivity].
  do 2 f_equal. unfold JS.length. rewrite length_take. lia.
Qed.

(** [toDecimalValue] follows the parsing rule when the integer part is no
    longer than the fraction and the fraction has at most 7 digits. *)
Lemma toDecimalValue_agrees_with_rule (ip fp : string) :
  digits ip -> ip <> "" -> digits fp -> fp <> "" ->
  JS.length ip <= JS.length fp <= 7 ->
  exists m s,
    toDecimalValue (ip ++ "." ++ fp) = Ok {| value := m; scale := s |} /\
    Spec.parse (ip ++ "." ++ fp) = Ok {| Spec.magnitude := m; Spec.scale := s |}.
Proof.
  intros Hi Ni Hf Nf L.
  exists (JS.digits_value (ip ++ fp)), (JS.length fp). split.
  - now apply toDecimalValue_short_integer_part.
  - rewrite spec_parse_unsigned by assumption.
    rewrite take_all by (unfold JS.length in L; lia).
    now rewrite Z.min_l by lia.
Qed.

(** X9: trailing zeros appended to the fraction do not change the order, as
    long as [toDecimalValue] reads both operands in full *)
Lemma compare_trailing_zeros (ip fp : string) (k : nat) :
  digits ip -> digits fp ->
  JS.length ip <= JS.length fp -> JS.length fp + Z.of_nat k <= 7 ->
  compare (ip ++ "." ++ fp) (ip ++ "." ++ fp ++ JS.repeat "0" k) = Ok 0.
Proof.
  intros Hi Hf L1 L2.
  assert (Hz : digits (fp ++ JS.repeat "0" k)).
  { unfold digits in *. rewrite all_append, Hf, all_repeat; reflexivity. }
  assert (Lz : JS.length (fp ++ JS.repeat "0" k) = JS.length fp + Z.of_nat k).
  { now rewrite length_append, length_repeat. }
  unfold compare.
  rewrite (toDecimalValue_short_integer_part ip fp) by (try assumption; lia).
  rewrite (toDecimalValue_short_integer_part ip (fp ++ JS.repeat "0" k))
    by (try assumption; lia).
  cbn [bind value scale]. rewrite Lz.
  rewrite Z.max_r by lia.
  replace (JS.length fp + Z.of_nat k - JS.length fp) with (Z.of_nat k) by lia.
  rewrite Z.sub_diag. change (JS.pow10 0) with 1. rewrite Z.mul_1_r.
  rewrite <- append_assoc, (digits_value_append (ip ++ fp) (JS.repeat "0" k)).
  rewrite digits_value_repeat_zero.
  rewrite length_repeat, Z.add_0_r. unfold JS.pow10.
  now rewrite Z.ltb_irrefl, Z.gtb_ltb, Z.ltb_irrefl.
Qed.

(** ** The big.js variant *)

Section BigFacts.
Import BigJs.

Lemma pow10n_pos k : 0 < pow10n k.
Proof. unfold pow10n. apply Z.pow_pos_nonneg; lia. Qed.

Lemma pow10n_add a b : pow10n (a + b) = pow10n a * pow10n b.
Proof.
  unfold pow10n. rewrite Nat2Z.inj_add, Z.pow_add_r by lia. reflexivity.
Qed.

Lemma pow10n_S k : pow10n (S k) = 10 * pow10n k.
Proof. change (S k) with (1 + k)%nat. now rewrite pow10n_add. Qed.

Lemma strip_represents k : forall m, represents (strip m k) m k.
Proof.
  unfold represents.
  induction k as [|k IH]; intros m; simpl.
  - ring.
  - destruct (Z.eqb_spec (m mod 10) 0) as [E|E]; [|reflexivity].
    assert (M : m = 10 * (m / 10)) by (pose proof (Z.div_mod m 10); lia).
    specialize (IH (m / 10)). rewrite pow10n_S.
    destruct (strip (m / 10) k) as [u p]; cbn [unscaled places] in *.
    rewrite M at 1. rewrite <- Z.mul_assoc, <- IH. ring.
Qed.

Lemma strip_canonical k : forall m, canonical (strip m k).
Proof.
  unfold canonical.
  induction k as [|k IH]; intros m; simpl.
  - now left.
  - destruct (Z.eqb_spec (m mod 10) 0) as [E|E]; simpl; [apply IH | now right].
Qed.

Lemma round_half_up_exact q d : 0 < d -> round_half_up (q * d) d = q.
Proof.
  intros Hd. unfold round_half_up.
  rewrite Z.abs_mul, (Z.abs_eq d), (Z.sgn_pos d), Z.sgn_mul, (Z.sgn_pos d) by lia.
  replace (2 * (Z.abs q * d) + d) with (d + Z.abs q * (2 * d)) by ring.
  rewrite Z.div_add, Z.div_small by lia.
  rewrite !Z.mul_1_r, Z.add_0_l. rewrite Z.mul_comm. apply Z.abs_sgn.
Qed.

Lemma parse_test n :
  JS.test NUMERIC n = true -> exists x, parse n = Ok x /\ canonical x.
Proof.
  intros H. unfold parse. rewrite H. simpl.
  destruct (match n with String "-" t => (true, t) | _ => (false, n) end)
    as [negative n'].
  destruct (_ >=? 0); eexists; split; try reflexivity.
  - apply strip_canonical.
  - now left.
Qed.

Lemma decimal_shape_NUMERIC t : decimal_shape t -> JS.matches NUMERIC t.
Proof.
  intros (sign & ip & dot & fp & -> & Hs & Hip & Hdot & Hfp & N).
  unfold NUMERIC. apply matches_seq. exists sign, (ip ++ dot ++ fp).
  repeat split.
  { apply matches_opt.
    destruct Hs as [->| ->]; [auto | right; now apply matches_chr]. }
  apply matches_seq. exists (ip ++ dot ++ fp), "".
  split; [now rewrite append_empty_r|].
  split; [|apply matches_opt; auto].
  destruct Hdot as [->| ->].
  - apply JS.m_alt_l. apply matches_seq. exists (ip ++ fp), "".
    split; [now rewrite append_empty_r|]. split; [|apply matches_opt; auto].
    apply matches_plus_digit. split.
    + unfold digits in *. now rewrite all_append, Hip, Hfp.
    + intros E. apply append_eq_empty in E as [_ E]. auto.
  - destruct ip as [|c ip].
    + apply JS.m_alt_r. apply matches_seq. exists ".", fp.
      repeat split; [now apply matches_chr | now apply matches_plus_digit].
    + apply JS.m_alt_l. apply matches_seq. exists (String c ip), ("." ++ fp).
      repeat split.
      * apply matches_plus_digit. split; [auto | discriminate].
      * apply matches_opt. right. apply matches_seq. exists ".", fp.
        repeat split; [now apply matches_chr | now apply matches_star_digit].
Qed.

Lemma div_100_exact f :
  (places f <= 18)%nat ->
  exists q, div f (of_Z 100) = Ok q /\ canonical q /\
            represents q (unscaled f) (places f + 2).
Proof.
  intros Hf. unfold div.
  change (unscaled (of_Z 100)) with 100.
  change (places (of_Z 100)) with 0%nat.
  change (100 =? 0) with false. cbv iota.
  eexists; split; [reflexivity|]. split; [apply strip_canonical|].
  set (T := pow10n (18 - places f)).
  assert (E : unscaled f * pow10n (DP + 0) = (unscaled f * T) * (100 * pow10n (places f))).
  { assert (P : pow10n (DP + 0) = T * (100 * pow10n (places f))).
    { subst T. replace (100 * pow10n (places f)) with (pow10n (places f + 2)).
      - rewrite <- pow10n_add. f_equal. unfold DP. lia.
      - rewrite pow10n_add. change (pow10n 2) with 100. ring. }
    rewrite P. ring. }
  rewrite E, round_half_up_exact by (pose proof (pow10n_pos (places f)); lia).
  pose proof (strip_represents DP (unscaled f * T)) as R.
  unfold represents in *.
  set (q := strip (unscaled f * T) DP) in *.
  assert (P : pow10n DP = T * pow10n (places f + 2)).
  { subst T. rewrite <- pow10n_add. f_equal. unfold DP. lia. }
  rewrite P in R.
  apply (Z.mul_reg_r _ _ T); [pose proof (pow10n_pos (18 - places f)); subst T; lia|].
  rewrite <- Z.mul_assoc, (Z.mul_comm _ T), R. ring.
Qed.

Lemma plus_one_represents q :
  represents (plus (of_Z 1) q) (pow10n (places q) + unscaled q) (places q).
Proof.
  unfold plus. change (places (of_Z 1)) with 0%nat.
  change (unscaled (of_Z 1)) with 1.
  rewrite Nat.max_0_l, Nat.sub_0_r, Nat.sub_diag.
  change (pow10n 0) with 1. rewrite Z.mul_1_l, Z.mul_1_r.
  apply strip_represents.
Qed.

Lemma times_represents x y :
  represents (times x y) (unscaled x * unscaled y) (places x + places y).
Proof. apply strip_represents. Qed.

Lemma times_canonical x y : canonical (times x y).
Proof. apply strip_canonical. Qed.

End BigFacts.

(** [DecimalUtils.divide] rounds to the nearest, a tie away from zero, and
    prints all the places asked for *)
Lemma big_divide_rounds_and_pads :
  DecimalUtils.divide "2" "3" 7 = Ok "0.6666667" /\
  DecimalUtils.divide "1" "0.5" 7 = Ok "2.0000000" /\
  DecimalUtils.divide "10" "3" 7 = Ok "3.3333333" /\
  DecimalUtils.divide "1" "0" 7 = Throw (BigError "[big.js] Division by zero").
Proof. repeat split; vm_compute; reflexivity. Qed.


(** ** Reading and printing a [Big] *)

Section BigNotation.
Import BigJs.

Lemma digits_no_e s : digits s -> JS.all (fun c => negb (is_e c)) s = true.
Proof.
  apply all_impl. intros c H. unfold is_e.
  now rewrite !(digit_neq c) by first [exact H | reflexivity].
Qed.

(** [new Big(s)] on a decimal with a fraction *)
Lemma parse_point (negative : bool) (W F : string) :
  digits W -> digits F -> F <> "" ->
  parse (sign_of negative ++ W ++ "." ++ F)
  = Ok (strip (signed negative (JS.digits_value (W ++ F))) (String.length F)).
Proof.
  intros HW HF N. unfold parse.
  assert (T : JS.test NUMERIC (sign_of negative ++ W ++ "." ++ F) = true).
  { apply test_matches, decimal_shape_NUMERIC.
    exists (sign_of negative), W, ".", F. repeat split; auto.
    destruct negative; cbn; auto. }
  rewrite T. cbn [negb].
  assert (E : (match sign_of negative ++ W ++ "." ++ F with
               | String "-" t => (true, t)
               | _ => (false, sign_of negative ++ W ++ "." ++ F)
               end) = (negative, W ++ "." ++ F)).
  { destruct negative; [reflexivity|]. cbn [sign_of append].
    destruct W as [|c W']; [reflexivity|]. cbn [append].
    unfold digits in HW. cbn [JS.all] in HW. apply andb_true_iff in HW as [Hc _].
    now apply leading_digit_unsigned. }
  rewrite E.
  assert (NE : JS.all (fun c => negb (is_e c)) (W ++ "." ++ F) = true).
  { rewrite !all_append, (digits_no_e W HW), (digits_no_e F HF). reflexivity. }
  rewrite (before_none _ _ NE), (after_none _ _ NE).
  change ("." ++ F) with (String "." F).
  rewrite before_append, after_append
    by first [exact (digits_no_point W HW) | reflexivity].
  change (exponent "") with 0. rewrite Z.sub_0_r.
  destruct (Z.geb_spec (JS.length F) 0) as [_|B];
    [|pose proof (length_nonneg F); lia].
  unfold JS.length. rewrite Nat2Z.id. destruct negative; reflexivity.
Qed.

(** [new Big(s)] on an integer *)
Lemma parse_integer (negative : bool) (W : string) :
  digits W -> W <> "" ->
  parse (sign_of negative ++ W)
  = Ok {| unscaled := signed negative (JS.digits_value W); places := O |}.
Proof.
  intros HW N. unfold parse.
  assert (T : JS.test NUMERIC (sign_of negative ++ W) = true).
  { apply test_matches, decimal_shape_NUMERIC.
    exists (sign_of negative), "", "", W. repeat split; auto.
    destruct negative; cbn; auto. }
  rewrite T. cbn [negb].
  assert (E : (match sign_of negative ++ W with
               | String "-" t => (true, t)
               | _ => (false, sign_of negative ++ W)
               end) = (negative, W)).
  { destruct negative; [reflexivity|]. cbn [sign_of append].
    destruct W as [|c W']; [reflexivity|].
    unfold digits in HW. cbn [JS.all] in HW. apply andb_true_iff in HW as [Hc _].
    now apply leading_digit_unsigned. }
  rewrite E.
  rewrite (before_none _ _ (digits_no_e W HW)), (after_none _ _ (digits_no_e W HW)).
  rewrite (before_none _ _ (digits_no_point W HW)), (after_none _ _ (digits_no_point W HW)).
  rewrite append_empty_r. change (exponent "") with 0.
  change (JS.length "" - 0 >=? 0) with true. cbv iota.
  change (Z.to_nat (JS.length "" - 0)) with O.
  destruct negative; reflexivity.
Qed.

Lemma padStart0_digits (t : string) (k : Z) :
  digits t -> JS.length t <= k ->
  digits (JS.padStart0 t k) /\
  JS.length (JS.padStart0 t k) = k /\
  JS.digits_value (JS.padStart0 t k) = JS.digits_value t.
Proof.
  intros Ht L. unfold JS.padStart0. repeat split.
  - unfold digits in *. rewrite all_append, all_repeat, Ht; reflexivity.
  - rewrite length_append, length_repeat. lia.
  - rewrite digits_value_append, digits_value_repeat_zero. lia.
Qed.

Lemma strip_canonical_id (x : Big) :
  canonical x -> strip (unscaled x) (places x) = x.
Proof.
  destruct x as [m [|k]]; unfold canonical; cbn [unscaled places strip].
  - reflexivity.
  - intros [H|H]; [discriminate|].
    destruct (Z.eqb_spec (m mod 10) 0); [contradiction | reflexivity].
Qed.

(** the normal notation of a [Big] without trailing zeros reads back as
    that [Big] *)
Lemma toFixed_parse (x : Big) : canonical x -> parse (toFixed x) = Ok x.
Proof.
  intros C. rewrite <- (strip_canonical_id x C) at 2.
  destruct x as [m k]. unfold toFixed, notation. cbn [unscaled places].
  assert (S : forall b, (if m <? 0 then "-" ++ b else b) = sign_of (m <? 0) ++ b).
  { intros b. now destruct (m <? 0). }
  assert (V : signed (m <? 0) (Z.abs m) = m).
  { unfold signed. destruct (Z.ltb_spec m 0); lia. }
  rewrite S. destruct k as [|k'].
  - rewrite parse_integer
      by (auto using toString_nonempty; apply toString_digits; lia).
    rewrite toString_value by lia. now rewrite V.
  - set (k := Datatypes.S k') in *.
    pose proof (pow10n_pos k) as P.
    assert (R : 0 <= Z.abs m mod pow10n k < pow10n k) by (apply Z.mod_pos_bound; lia).
    assert (Q : 0 <= Z.abs m / pow10n k) by (apply Z.div_pos; lia).
    destruct (padStart0_digits (JS.toString (Z.abs m mod pow10n k)) (Z.of_nat k))
      as (D & L & E).
    { apply toString_digits; lia. }
    { apply toString_length; [exact R | subst k; lia]. }
    rewrite parse_point; [ | apply toString_digits; lia | exact D | ].
    2:{ intros Z0. rewrite Z0 in L. unfold JS.length in L. cbn in L. subst k. lia. }
    rewrite digits_value_append, E, L, !toString_value by lia.
    unfold JS.length in L. apply Nat2Z.inj in L. rewrite L.
    fold (pow10n k). rewrite Z.mul_comm, <- Z.div_mod by lia.
    now rewrite V.
Qed.

End BigNotation.

(** ** What [new Big] accepts *)

Lemma matches_draws_from (P : ascii -> bool) (r : JS.regex) (s : string) :
  draws_from P r -> JS.matches r s -> JS.all P s = true.
Proof.
  intros D M. induction M; cbn [draws_from JS.all] in *.
  - reflexivity.
  - now rewrite (D _ H).
  - destruct D as [D1 D2]. rewrite all_append, IHM1, IHM2; auto.
  - destruct D as [D1 _]. auto.
  - destruct D as [_ D2]. auto.
  - reflexivity.
  - rewrite all_append, IHM1, IHM2; auto.
Qed.

(** no character of a numeric literal of big.js is white space *)
Lemma NUMERIC_draws_from_no_space :
  draws_from (fun c => negb (JS.is_space c)) BigJs.NUMERIC.
Proof.
  cbn; repeat split; trivial;
    intros [[] [] [] [] [] [] [] []]; vm_compute; auto.
Qed.

(** [new Big] does not trim: a string with white space at either end is
    not a number *)
Lemma parse_rejects_padded (n : string) :
  JS.trim n <> n ->
  BigJs.parse n = Throw (BigError "[big.js] Invalid number").
Proof.
  intros H. unfold BigJs.parse.
  destruct (JS.test BigJs.NUMERIC n) eqn:T; [|reflexivity].
  exfalso. apply H, trim_none.
  apply (matches_draws_from _ BigJs.NUMERIC);
    [apply NUMERIC_draws_from_no_space | now apply test_matches].
Qed.

(** the only error of [new Big] on a string *)
Lemma parse_throws (n : string) (e : exn) :
  BigJs.parse n = Throw e -> e = BigError "[big.js] Invalid number".
Proof.
  unfold BigJs.parse. destruct (JS.test BigJs.NUMERIC n); cbn [negb]; [|congruence].
  destruct (match n with String "-" t => (true, t) | _ => (false, n) end)
    as [negative n'].
  destruct (_ >=? 0); discriminate.
Qed.

(** the percentage 1e-19 has 19 fractional digits; its hundredth is rounded
    to 20 decimal places, which gives zero, and the total returned for the
    amount 1 is ["1"], whereas 1 * (1 + 1e-19 / 100) is
    1.000000000000000000001. *)
Lemma applyFee_total_rounds_small_percentage :
  BigJs.parse "1" = Ok {| BigJs.unscaled := 1; BigJs.places := 0 |} /\
  BigJs.parse "1e-19" = Ok {| BigJs.unscaled := 1; BigJs.places := 19 |} /\
  DecimalUtils.applyFee "1" "1e-19" = Ok "1" /\
  BigJs.toFixed {| BigJs.unscaled := 1000000000000000000001; BigJs.places := 21 |}
  = "1.000000000000000000001".
Proof. repeat split; vm_compute; reflexivity. Qed.

(** C8, as the code has it: for every amount that [new Big] accepts and
    every percentage with at most 18 fractional digits,
    [DecimalUtils.applyFee] returns the normal notation of a [Big] without
    trailing fractional zeros (a string that reads back as that [Big]) whose
    value is exactly amount * (1 + percentage / 100), that is
    amount * (100 + percentage) / 100; on 100 and 1.5 it returns ["101.5"].
    [new Big] accepts every string of the decimal grammar, written without
    surrounding white space, and also ["5."] and ["1e3"]; on an amount it
    rejects, [applyFee] throws the "Invalid number" error of [new Big], and
    it rejects every amount with white space at either end, since it does
    not trim. *)
Theorem applyFee_total_exact :
  (forall (amount feePercentage : string) (a f : BigJs.Big),
      BigJs.parse amount = Ok a ->
      BigJs.parse feePercentage = Ok f ->
      (BigJs.places f <= 18)%nat ->
      exists r : BigJs.Big,
        DecimalUtils.applyFee amount feePercentage = Ok (BigJs.toFixed r) /\
        canonical r /\
        BigJs.parse (BigJs.toFixed r) = Ok r /\
        represents r
          (BigJs.unscaled a
           * (100 * BigJs.pow10n (BigJs.places f) + BigJs.unscaled f))
          (BigJs.places a + (BigJs.places f + 2))) /\
  (forall amount : string,
      decimal_shape amount -> exists a, BigJs.parse amount = Ok a) /\
  (forall (amount feePercentage : string) (e : exn),
      BigJs.parse amount = Throw e ->
      DecimalUtils.applyFee amount feePercentage
      = Throw (BigError "[big.js] Invalid number")) /\
  (forall amount feePercentage : string,
      JS.trim amount <> amount ->
      DecimalUtils.applyFee amount feePercentage
      = Throw (BigError "[big.js] Invalid number")) /\
  DecimalUtils.applyFee "100" "1.5" = Ok "101.5" /\
  DecimalUtils.applyFee "5." "1.5" = Ok "5.075" /\
  DecimalUtils.applyFee "1e3" "1.5" = Ok "1015".
Proof.
  split; [|split; [|split; [|split; [|repeat split; vm_compute; reflexivity]]]].
  2:{ intros amount Ha.
      apply decimal_shape_NUMERIC, test_matches in Ha.
      destruct (parse_test _ Ha) as (a & Pa & _). eauto. }
  2:{ intros amount fee e Pa. unfold DecimalUtils.applyFee.
      rewrite Pa. cbn [bind]. now rewrite (parse_throws _ _ Pa). }
  2:{ intros amount fee H. unfold DecimalUtils.applyFee.
      now rewrite (parse_rejects_padded amount H). }
  intros amount fee a f Pa Hf Hp.
  destruct (div_100_exact f Hp) as (q & Dq & _ & Rq).
  exists (BigJs.times a (BigJs.plus (BigJs.of_Z 1) q)).
  split.
  { unfold DecimalUtils.applyFee. rewrite Pa, Hf. cbn [bind].
    rewrite Dq. reflexivity. }
  split; [apply times_canonical|].
  split; [apply toFixed_parse, times_canonical|].
  pose proof (plus_one_represents q) as R1.
  pose proof (times_represents a (BigJs.plus (BigJs.of_Z 1) q)) as R2.
  unfold represents in *.
  set (s := BigJs.plus (BigJs.of_Z 1) q) in *.
  set (r := BigJs.times a s) in *.
  rewrite !pow10n_add in *. change (BigJs.pow10n 2) with 100 in *.
  pose proof (pow10n_pos (BigJs.places a)) as PA.
  pose proof (pow10n_pos (BigJs.places f)) as PF.
  pose proof (pow10n_pos (BigJs.places q)) as PQ.
  pose proof (pow10n_pos (BigJs.places s)) as PS.
  pose proof (pow10n_pos (BigJs.places r)) as PR.
  apply (Z.mul_reg_r _ _ (BigJs.pow10n (BigJs.places q) * BigJs.pow10n (BigJs.places s)));
    [nia|].
  transitivity
    (BigJs.unscaled r * (BigJs.pow10n (BigJs.places a) * BigJs.pow10n (BigJs.places s))
     * (BigJs.pow10n (BigJs.places f) * 100) * BigJs.pow10n (BigJs.places q));
    [ring|].
  rewrite R2.
  transitivity
    (BigJs.unscaled a * BigJs.pow10n (BigJs.places r)
     * (BigJs.pow10n (BigJs.places f) * 100)
     * (BigJs.unscaled s * BigJs.pow10n (BigJs.places q))); [ring|].
  rewrite R1.
  transitivity
    (BigJs.unscaled a * BigJs.pow10n (BigJs.places r) * BigJs.pow10n (BigJs.places s)
     * (BigJs.pow10n (BigJs.places f) * 100 * BigJs.pow10n (BigJs.places q)
        + BigJs.unscaled q * (BigJs.pow10n (BigJs.places f) * 100))); [ring|].
  rewrite Rq. ring.
Qed.

(** C8 on the amount ["12.50"] and the percentage 2.5 *)
Lemma applyFee_total_exact_witness :
  BigJs.parse "12.50" = Ok {| BigJs.unscaled := 125; BigJs.places := 1 |} /\
  BigJs.parse "2.5" = Ok {| BigJs.unscaled := 25; BigJs.places := 1 |} /\
  (1 <= 18)%nat /\
  exists r : BigJs.Big,
    DecimalUtils.applyFee "12.50" "2.5" = Ok (BigJs.toFixed r) /\
    canonical r /\
    BigJs.parse (BigJs.toFixed r) = Ok r /\
    represents r (125 * (100 * BigJs.pow10n 1 + 25)) (1 + (1 + 2)).
Proof.
  split; [reflexivity|]. split; [reflexivity|]. split; [lia|].
  apply (proj1 applyFee_total_exact "12.50" "2.5"
           {| BigJs.unscaled := 125; BigJs.places := 1 |}
           {| BigJs.unscaled := 25; BigJs.places := 1 |});
    [reflexivity | reflexivity | simpl; lia].
Defined.

(** C8, counterexample: [" 100"] is a valid amount, the parsing of the
    specification and [fromString] trim it and accept it, and
    [DecimalUtils.applyFee] throws on it, where the total of 100 and 1.5
    percent is ["101.5"]. *)
Lemma applyFee_total_rejects_padded_amount :
  fromString " 100" = Ok "100" /\
  Spec.parse " 100" = Ok {| Spec.magnitude := 100; Spec.scale := 0 |} /\
  DecimalUtils.applyFee " 100" "1.5" = Throw (BigError "[big.js] Invalid number") /\
  DecimalUtils.applyFee "100" "1.5" = Ok "101.5".
Proof. repeat split; vm_compute; reflexivity. Qed.


(** * Further properties of the scaled-integer helpers *)

(** ** Validated operands *)

Lemma fromString_shape (str t : string) :
  fromString str = Ok t -> t = JS.trim str /\ decimal_shape t.
Proof.
  rewrite fromString_unfold.
  destruct (JS.test decimal_format (JS.trim str)) eqn:E; [|discriminate].
  intros [= <-]. split; [reflexivity | now apply test_decimal_format].
Qed.

(** X1: a string that [fromString] has validated is read by [toDecimalValue]
    without an exception, at a scale between 0 and 7. *)
Theorem validated_operand_parses (str t : string) :
  fromString str = Ok t ->
  exists d, toDecimalValue t = Ok d /\ 0 <= scale d <= 7.
Proof.
  intros H. apply fromString_shape in H as [_ S].
  now apply toDecimalValue_total.
Qed.

(** X1 on a concrete input *)
Lemma validated_operand_parses_witness :
  fromString " -12.5 " = Ok "-12.5" /\
  exists d, toDecimalValue "-12.5" = Ok d /\ 0 <= scale d <= 7.
Proof.
  split; [reflexivity|].
  apply (validated_operand_parses " -12.5 " "-12.5"). reflexivity.
Defined.

(** X2: on two validated operands [add], [subtract], [multiply] and [compare]
    return a result, and [divide] returns one or raises its division
    error. *)
Theorem validated_operands_never_fail (a b a' b' : string) :
  fromString a = Ok a' -> fromString b = Ok b' ->
  (exists r, add a' b' = Ok r) /\
  (exists r, subtract a' b' = Ok r) /\
  (exists r, multiply a' b' = Ok r) /\
  (exists r, compare a' b' = Ok r) /\
  ((exists r, divide a' b' = Ok r) \/ divide a' b' = Throw DivisionByZero).
Proof.
  intros Ha Hb.
  apply fromString_shape in Ha as [_ Sa]. apply fromString_shape in Hb as [_ Sb].
  destruct (toDecimalValue_total _ Sa) as (da & Ea & _).
  destruct (toDecimalValue_total _ Sb) as (db & Eb & _).
  unfold add, subtract, multiply, compare, divide. rewrite Ea, Eb. cbn [bind].
  repeat split; eauto.
  - destruct (_ <? _); [eauto|]. destruct (_ >? _); eauto.
  - destruct (value db =? 0); eauto.
Qed.

(** X2 on a concrete input *)
Lemma validated_operands_never_fail_witness :
  fromString " 1.25" = Ok "1.25" /\ fromString "0.0 " = Ok "0.0" /\
  (exists r, add "1.25" "0.0" = Ok r) /\
  (exists r, subtract "1.25" "0.0" = Ok r) /\
  (exists r, multiply "1.25" "0.0" = Ok r) /\
  (exists r, compare "1.25" "0.0" = Ok r) /\
  ((exists r, divide "1.25" "0.0" = Ok r)
   \/ divide "1.25" "0.0" = Throw DivisionByZero).
Proof.
  split; [reflexivity|]. split; [reflexivity|].
  apply (validated_operands_never_fail " 1.25" "0.0 "); reflexivity.
Defined.

(** ** What [toDecimalValue] reads *)

(** X3: a string of digits, with or without a minus sign, is read as the
    integer it writes, at scale 0. *)
Theorem toDecimalValue_signed_integer (negative : bool) (s : string) :
  digits s -> s <> "" ->
  toDecimalValue (sign_of negative ++ s)
  = Ok {| value := signed negative (JS.digits_value s); scale := 0 |}.
Proof.
  intros H N. destruct negative; cbn [sign_of signed].
  - now apply toDecimalValue_negative_integer.
  - now apply toDecimalValue_integer.
Qed.

(** X3 on a concrete input *)
Lemma toDecimalValue_signed_integer_witness :
  digits "0042" /\ "0042" <> "" /\
  toDecimalValue "-0042" = Ok {| value := -42; scale := 0 |}.
Proof.
  split; [reflexivity|]. split; [discriminate|].
  apply (toDecimalValue_signed_integer true "0042"); [reflexivity | discriminate].
Defined.

(** X4: a decimal is read in full, all its digits at the scale of its fraction,
    when the part before the point (sign included) is no longer than the
    fraction and the fraction has 1 to 7 digits. *)
Theorem toDecimalValue_reads_short_decimal (negative : bool) (ip fp : string) :
  digits ip -> digits fp -> fp <> "" ->
  JS.length (sign_of negative ++ ip) <= JS.length fp <= 7 ->
  toDecimalValue (sign_of negative ++ ip ++ "." ++ fp)
  = Ok {| value := signed negative (JS.digits_value (ip ++ fp));
          scale := JS.length fp |}.
Proof.
  intros Hi Hf N L. destruct negative; cbn [sign_of signed] in *.
  - rewrite toDecimalValue_negative by assumption.
    rewrite length_append in L. change (JS.length "-") with 1 in L.
    rewrite Z.min_l by lia. rewrite take_all; [reflexivity|].
    pose proof (length_append ip fp). unfold JS.length in *. lia.
  - now apply toDecimalValue_short_integer_part.
Qed.

(** X4 on a concrete input *)
Lemma toDecimalValue_reads_short_decimal_witness :
  digits "1" /\ digits "250" /\ "250" <> "" /\
  JS.length ("-" ++ "1") <= JS.length "250" <= 7 /\
  toDecimalValue "-1.250" = Ok {| value := -1250; scale := 3 |}.
Proof.
  split; [reflexivity|]. split; [reflexivity|]. split; [discriminate|].
  split; [cbn; lia|].
  apply (toDecimalValue_reads_short_decimal true "1" "250");
    [reflexivity | reflexivity | discriminate | cbn; lia].
Defined.

(** X5: whatever the input, a value [toDecimalValue] returns has a scale
    between 0 and 7. *)
Theorem scale_never_exceeds_seven (str : string) (d : DecimalValue) :
  toDecimalValue str = Ok d -> 0 <= scale d <= 7.
Proof. apply toDecimalValue_scale. Qed.

(** X5 on a concrete input *)
Lemma scale_never_exceeds_seven_witness :
  toDecimalValue "3.14159265358979"
  = Ok {| value := 314159265358979; scale := 7 |} /\
  0 <= 7 <= 7.
Proof.
  split; [vm_compute; reflexivity|].
  apply (scale_never_exceeds_seven "3.14159265358979"
           {| value := 314159265358979; scale := 7 |}).
  vm_compute; reflexivity.
Defined.


(** ** Algebra of the operations *)

(** X6: [add] and [multiply] give the same answer, result or exception, when
    their operands are exchanged. *)
Theorem add_multiply_commutative :
  (forall a b : string, add a b = add b a) /\
  (forall a b : string, multiply a b = multiply b a).
Proof.
  split; [exact add_commutes|].
  intros a b. unfold multiply.
  destruct (toDecimalValue a) as [da|ea] eqn:Ea,
           (toDecimalValue b) as [db|eb] eqn:Eb; cbn [bind]; try reflexivity.
  - now rewrite (Z.mul_comm (value db)), (Z.add_comm (scale db)).
  - now rewrite (toDecimalValue_throws _ _ Ea), (toDecimalValue_throws _ _ Eb).
Qed.

(** X7: when [compare] returns, its answer is -1, 0 or 1, and exchanging the
    operands gives the opposite answer. *)
Theorem compare_antisymmetric (a b : string) (r : Z) :
  compare a b = Ok r ->
  (r = -1 \/ r = 0 \/ r = 1) /\ compare b a = Ok (- r).
Proof.
  intros H. split; [eapply compare_three_valued; eassumption|].
  revert H. unfold compare.
  destruct (toDecimalValue a) as [da|], (toDecimalValue b) as [db|];
    cbn [bind]; try discriminate.
  rewrite (Z.max_comm (scale db)), !Z.gtb_ltb.
  set (x := value da * _). set (y := value db * _).
  destruct (Z.ltb_spec x y), (Z.ltb_spec y x); intros [= <-];
    first [reflexivity | lia].
Qed.

(** X7 on a concrete input *)
Lemma compare_antisymmetric_witness :
  compare "1.1" "1.2" = Ok (-1) /\
  (-1 = -1 \/ -1 = 0 \/ -1 = 1) /\ compare "1.2" "1.1" = Ok (- -1).
Proof.
  split; [vm_compute; reflexivity|].
  apply (compare_antisymmetric "1.1" "1.2" (-1)). vm_compute; reflexivity.
Defined.

(** X9 on a concrete input *)
Lemma compare_trailing_zeros_witness :
  digits "5" /\ digits "5" /\
  JS.length "5" <= JS.length "5" /\ JS.length "5" + Z.of_nat 2 <= 7 /\
  compare "5.5" "5.500" = Ok 0.
Proof.
  split; [reflexivity|]. split; [reflexivity|].
  split; [cbn; lia|]. split; [cbn; lia|].
  apply (compare_trailing_zeros "5" "5" 2);
    [reflexivity | reflexivity | cbn; lia | cbn; lia].
Defined.

(** X10 on a concrete input *)
Lemma divide_throws_iff_witness :
  toDecimalValue "7" = Ok {| value := 7; scale := 0 |} /\
  toDecimalValue "0.00" = Ok {| value := 0; scale := 2 |} /\
  (divide "7" "0.00" = Throw DivisionByZero <-> 0 = 0).
Proof.
  split; [vm_compute; reflexivity|]. split; [vm_compute; reflexivity|].
  apply (divide_throws_iff "7" "0.00" {| value := 7; scale := 0 |}
           {| value := 0; scale := 2 |}); vm_compute; reflexivity.
Defined.

(** X11 on a concrete input *)
Lemma divide_integers_witness :
  digits "22" /\ digits "7" /\ JS.digits_value "7" <> 0 /\
  divide "22" "7" = Ok (fromBigInt (Z.quot (22 * 10 ^ 7) 7) 7).
Proof.
  split; [reflexivity|]. split; [reflexivity|]. split; [discriminate|].
  apply (divide_integers "22" "7"); [reflexivity | reflexivity | discriminate].
Defined.

(** X12 on a concrete input *)
Lemma multiply_zero_witness :
  toDecimalValue "-3.25" = Ok {| value := -325; scale := 2 |} /\
  multiply "-3.25" "0" = Ok "0".
Proof.
  split; [vm_compute; reflexivity|].
  apply (multiply_zero "-3.25" {| value := -325; scale := 2 |}).
  vm_compute; reflexivity.
Defined.

(** X13: an operand subtracted from itself gives ["0"], whatever its scale. *)
Theorem subtract_self (a : string) (d : DecimalValue) :
  toDecimalValue a = Ok d -> subtract a a = Ok "0".
Proof.
  intros E. unfold subtract. rewrite E. cbn [bind].
  apply toDecimalValue_scale in E.
  rewrite Z.max_id, Z.sub_diag.
  change 0 with (0 * JS.pow10 (scale d)) at 1.
  rewrite fromBigInt_whole by lia. reflexivity.
Qed.

(** X13 on a concrete input *)
Lemma subtract_self_witness :
  toDecimalValue "0.1234567" = Ok {| value := 1234567; scale := 7 |} /\
  subtract "0.1234567" "0.1234567" = Ok "0".
Proof.
  split; [vm_compute; reflexivity|].
  apply (subtract_self "0.1234567" {| value := 1234567; scale := 7 |}).
  vm_compute; reflexivity.
Defined.


(** ** Formatting *)












(** ** Operations chained through their string results *)

Lemma digits_value_nonneg (s : string) : digits s -> 0 <= JS.digits_value s.
Proof. intros H. now apply digits_value_bound. Qed.

(** the string of a non-negative integer is read back as that integer *)
Lemma toDecimalValue_toString (v : Z) :
  0 <= v -> toDecimalValue (JS.toString v) = Ok {| value := v; scale := 0 |}.
Proof.
  intros H. rewrite toDecimalValue_integer by now apply toString_digits.
  now rewrite toString_value.
Qed.

Lemma fromBigInt_scale_zero (v : Z) : fromBigInt v 0 = JS.toString v.
Proof. reflexivity. Qed.

(** X17: on two strings of digits [applyFee] returns the percentage of the
    amount exactly: amount * percent * 10 ^ 5 printed at scale 7, that is
    amount * percent / 100. *)
Theorem applyFee_integers (amount feePercent : string) :
  digits amount -> digits feePercent ->
  applyFee amount feePercent
  = Ok (fromBigInt
          (JS.digits_value amount * JS.digits_value feePercent * 10 ^ 5) 7).
Proof.
  intros Ha Hp. unfold applyFee, multiply.
  rewrite (toDecimalValue_integer _ Ha), (toDecimalValue_integer _ Hp).
  cbn [bind value scale]. change (0 + 0) with 0. rewrite fromBigInt_scale_zero.
  pose proof (digits_value_nonneg _ Ha). pose proof (digits_value_nonneg _ Hp).
  unfold divide. rewrite toDecimalValue_toString by nia.
  change (toDecimalValue "100") with (Ok {| value := 100; scale := 0 |}).
  cbn [bind value]. change (100 =? 0) with false. cbv iota zeta.
  unfold JS.pow10. change (10 ^ 7) with (10 ^ 5 * 100).
  rewrite Z.mul_assoc, Z.quot_mul by discriminate. reflexivity.
Qed.

(** X17 on a concrete input *)
Lemma applyFee_integers_witness :
  digits "250" /\ digits "3" /\
  applyFee "250" "3" = Ok (fromBigInt (250 * 3 * 10 ^ 5) 7).
Proof.
  split; [reflexivity|]. split; [reflexivity|].
  apply (applyFee_integers "250" "3"); reflexivity.
Defined.

(** X18: on two strings of digits, adding the second and subtracting it again
    gives back the first, printed without its leading zeros. *)
Theorem integer_add_subtract_round_trip (a b : string) :
  digits a -> digits b ->
  exists sum,
    add a b = Ok sum /\
    sum = JS.toString (JS.digits_value a + JS.digits_value b) /\
    subtract sum b = Ok (JS.toString (JS.digits_value a)).
Proof.
  intros Ha Hb.
  pose proof (digits_value_nonneg _ Ha). pose proof (digits_value_nonneg _ Hb).
  exists (JS.toString (JS.digits_value a + JS.digits_value b)).
  split; [|split; [reflexivity|]].
  - unfold add.
    rewrite (toDecimalValue_integer _ Ha), (toDecimalValue_integer _ Hb).
    cbn [bind value scale]. change (Z.max 0 0) with 0. change (0 - 0) with 0.
    change (JS.pow10 0) with 1. now rewrite !Z.mul_1_r, fromBigInt_scale_zero.
  - unfold subtract.
    rewrite toDecimalValue_toString by lia.
    rewrite (toDecimalValue_integer _ Hb).
    cbn [bind value scale]. change (Z.max 0 0) with 0. change (0 - 0) with 0.
    change (JS.pow10 0) with 1. rewrite !Z.mul_1_r, fromBigInt_scale_zero.
    f_equal. f_equal. lia.
Qed.

(** X18 on a concrete input *)
Lemma integer_add_subtract_round_trip_witness :
  digits "007" /\ digits "995" /\
  exists sum,
    add "007" "995" = Ok sum /\
    sum = JS.toString (JS.digits_value "007" + JS.digits_value "995") /\
    subtract sum "995" = Ok (JS.toString (JS.digits_value "007")).
Proof.
  split; [reflexivity|]. split; [reflexivity|].
  apply (integer_add_subtract_round_trip "007" "995"); reflexivity.
Defined.

Lemma decimal_shape_no_space (t : string) :
  decimal_shape t -> JS.all (fun c => negb (JS.is_space c)) t = true.
Proof.
  intros (sign & ip & dot & fp & -> & Hs & Hip & Hdot & Hfp & _).
  rewrite !all_append, (digits_no_space ip Hip), (digits_no_space fp Hfp).
  destruct Hs as [->| ->], Hdot as [->| ->]; reflexivity.
Qed.

(** X19: [fromString] leaves its own results unchanged: a string it returned is
    accepted again and returned as it is. *)
Theorem fromString_idempotent (str t : string) :
  fromString str = Ok t -> fromString t = Ok t.
Proof.
  intros H. apply fromString_shape in H as [_ S].
  rewrite fromString_unfold, (trim_none t (decimal_shape_no_space t S)).
  apply test_decimal_format in S. now rewrite S.
Qed.

(** X19 on a concrete input *)
Lemma fromString_idempotent_witness :
  fromString "  -.50 " = Ok "-.50" /\ fromString "-.50" = Ok "-.50".
Proof.
  split; [reflexivity|].
  apply (fromString_idempotent "  -.50 " "-.50"). reflexivity.
Defined.


(** ** The order [compare] answers *)

(** X8: [compare] answers the sign of the difference of the two decimals that
    [toDecimalValue] reads, value / 10 ^ scale: -1 when the first is the
    smaller, 0 when they are equal, 1 when it is the larger. *)
Theorem compare_orders_by_value (a b : string) (da db : DecimalValue) :
  toDecimalValue a = Ok da -> toDecimalValue b = Ok db ->
  compare a b
  = Ok (Z.sgn (value da * 10 ^ scale db - value db * 10 ^ scale da)).
Proof.
  intros Ea Eb.
  pose proof (toDecimalValue_scale _ _ Ea) as Sa.
  pose proof (toDecimalValue_scale _ _ Eb) as Sb.
  unfold compare. rewrite Ea, Eb. cbn [bind]. unfold JS.pow10.
  set (m := Z.max (scale da) (scale db)).
  assert (M : scale da <= m /\ scale db <= m /\ m <= scale da + scale db)
    by (subst m; lia).
  set (x := value da * 10 ^ (m - scale da)).
  set (y := value db * 10 ^ (m - scale db)).
  assert (K : value da * 10 ^ scale db - value db * 10 ^ scale da
              = (x - y) * 10 ^ (scale da + scale db - m)).
  { subst x y. rewrite Z.mul_sub_distr_r, <- !Z.mul_assoc, <- !Z.pow_add_r by lia.
    f_equal; f_equal; f_equal; lia. }
  rewrite K, Z.sgn_mul, (Z.sgn_pos (10 ^ _)), Z.mul_1_r
    by (apply Z.pow_pos_nonneg; lia).
  rewrite Z.gtb_ltb.
  destruct (Z.ltb_spec x y); [now rewrite Z.sgn_neg by lia|].
  destruct (Z.ltb_spec y x); [now rewrite Z.sgn_pos by lia|].
  now rewrite Z.sgn_null by lia.
Qed.

(** X8 on a concrete input *)
Lemma compare_orders_by_value_witness :
  toDecimalValue "0.5" = Ok {| value := 5; scale := 1 |} /\
  toDecimalValue "0.25" = Ok {| value := 25; scale := 2 |} /\
  compare "0.5" "0.25" = Ok (Z.sgn (5 * 10 ^ 2 - 25 * 10 ^ 1)).
Proof.
  split; [vm_compute; reflexivity|]. split; [vm_compute; reflexivity|].
  apply (compare_orders_by_value "0.5" "0.25" {| value := 5; scale := 1 |}
           {| value := 25; scale := 2 |}); vm_compute; reflexivity.
Defined.


(** ** Negative values with a fraction *)






(** ** [new Big] on a decimal *)

(** X29: in the big.js variant [fromString] reads a decimal written with a
    fraction in full: the [Big] returned has no trailing fractional zero and
    its value is the integer written by all the digits, at the scale of the
    fraction, whatever the lengths of the two parts. *)
Theorem big_fromString_reads_decimal (negative : bool) (W F : string) :
  digits W -> digits F -> F <> "" ->
  exists x : BigJs.Big,
    DecimalUtils.fromString (sign_of negative ++ W ++ "." ++ F) = Ok x /\
    canonical x /\
    represents x (signed negative (JS.digits_value (W ++ F))) (String.length F).
Proof.
  intros HW HF N. unfold DecimalUtils.fromString.
  rewrite parse_point by assumption.
  eexists. split; [reflexivity|].
  split; [apply strip_canonical | apply strip_represents].
Qed.

(** X29 on a concrete input *)
Lemma big_fromString_reads_decimal_witness :
  digits "12" /\ digits "50" /\ "50" <> "" /\
  exists x : BigJs.Big,
    DecimalUtils.fromString "-12.50" = Ok x /\
    canonical x /\
    represents x (- JS.digits_value "1250") 2.
Proof.
  split; [reflexivity|]. split; [reflexivity|]. split; [discriminate|].
  apply (big_fromString_reads_decimal true "12" "50");
    [reflexivity | reflexivity | discriminate].
Defined.


(** * The error handler *)

Section ErrorHandlerFacts.
Import Errors.

(** The expectations of the handler's test suite *)
Lemma test_suite_errorHandler :
  let sep := errorHandler None
               (Anchor (new_SepProtocolError "Invalid SEP-10 challenge"
                          (Some "INVALID_CHALLENGE") None)) in
  let rail env := errorHandler (Some env)
                    (Anchor (new_RailError "Payment failed"
                               (Some {| Error.message := "Payment gateway failed" |}))) in
  let validation := errorHandler None
                      (Anchor (new_ValidationError "Invalid input" None)) in
  let database env := errorHandler (Some env)
                        (Anchor (new_DatabaseError "Database error"
                                   (Some {| Error.message := "Connection failed" |}))) in
  let network := errorHandler (Some "production")
                   (Anchor (new_NetworkError "Network unavailable" None)) in
  (Handled.statusCode sep = 400 /\
   ErrorResponse.type (Handled.response sep) = SEP_PROTOCOL /\
   ErrorResponse.message (Handled.response sep) = "Invalid SEP-10 challenge" /\
   ErrorResponse.code (Handled.response sep) = Some "INVALID_CHALLENGE") /\
  (Handled.statusCode (rail "production") = 502 /\
   ErrorResponse.type (Handled.response (rail "production")) = RAIL_ERROR /\
   ErrorResponse.message (Handled.response (rail "production"))
   = "Payment rail service unavailable" /\
   ErrorResponse.code (Handled.response (rail "production")) = Some "RAIL_ERROR" /\
   ErrorResponse.details (Handled.response (rail "production")) = None) /\
  (Handled.statusCode (rail "development") = 502 /\
   ErrorResponse.message (Handled.response (rail "development")) = "Payment failed" /\
   ErrorResponse.details (Handled.response (rail "development"))
   = Some (cons ("originalError", Str "Payment gateway failed") nil)) /\
  (Handled.statusCode validation = 400 /\
   ErrorResponse.details (Handled.response validation)
   = Some (cons ("field", Undefined) nil)) /\
  (Handled.statusCode (database "production") = 500 /\
   ErrorResponse.message (Handled.response (database "production"))
   = "Service temporarily unavailable" /\
   ErrorResponse.details (Handled.response (database "production")) = None) /\
  (Handled.statusCode (database "development") = 500 /\
   ErrorResponse.message (Handled.response (database "development"))
   = "Database error" /\
   ErrorResponse.details (Handled.response (database "development"))
   = Some (cons ("originalError", Str "Connection failed") nil)) /\
  (Handled.statusCode network = 503 /\
   ErrorResponse.message (Handled.response network)
   = "Service temporarily unavailable") /\
  (Handled.statusCode (errorHandler None (Plain {| Error.message := "Something went wrong" |}))
   = 500 /\
   ErrorResponse.message
     (Handled.response (errorHandler None (Plain {| Error.message := "Something went wrong" |})))
   = "An internal server error occurred") /\
  ErrorResponse.message
    (Handled.response (errorHandler None (NotAnError (Str "not an error"))))
  = "An unexpected error occurred".
Proof. cbv zeta. repeat split. Qed.

Lemma isProduction_iff (env : option string) :
  isProduction env = true <-> env = Some "production".
Proof.
  destruct env as [v|]; cbn; [|split; discriminate].
  rewrite String.eqb_eq. split; congruence.
Qed.

End ErrorHandlerFacts.

(** X20: in production the response does not depend on the original error an
    error object carries: two error objects that differ in [originalError]
    only get the same response, whatever their class and type. *)
Theorem production_response_ignores_original_error
    (env : option string) (cls : Errors.class) (message : string)
    (type : Errors.ErrorType) (statusCode : Z) (code : option string)
    (details : option Errors.record) (o1 o2 : option Errors.Error.t) :
  Errors.isProduction env = true ->
  Errors.errorHandler env
    (Errors.Anchor
       {| Errors.AnchorError.cls := cls;
          Errors.AnchorError.message := message;
          Errors.AnchorError.type := type;
          Errors.AnchorError.statusCode := statusCode;
          Errors.AnchorError.code := code;
          Errors.AnchorError.details := details;
          Errors.AnchorError.originalError := o1 |})
  = Errors.errorHandler env
      (Errors.Anchor
         {| Errors.AnchorError.cls := cls;
            Errors.AnchorError.message := message;
            Errors.AnchorError.type := type;
            Errors.AnchorError.statusCode := statusCode;
            Errors.AnchorError.code := code;
            Errors.AnchorError.details := details;
            Errors.AnchorError.originalError := o2 |}).
Proof.
  intros P. unfold Errors.errorHandler, Errors.handleAnchorError.
  cbn [Errors.AnchorError.type Errors.AnchorError.originalError
       Errors.AnchorError.statusCode Errors.AnchorError.message
       Errors.AnchorError.code Errors.AnchorError.details].
  rewrite P. destruct type; try reflexivity.
  unfold Errors.instanceof_RailError. cbn [Errors.AnchorError.cls negb andb].
  destruct cls; reflexivity.
Qed.

(** X20 on a concrete input *)
Lemma production_response_ignores_original_error_witness :
  Errors.isProduction (Some "production") = true /\
  Errors.errorHandler (Some "production")
    (Errors.Anchor
       (Errors.new_DatabaseError "Database error"
          (Some {| Errors.Error.message := "password rejected for db-user" |})))
  = Errors.errorHandler (Some "production")
      (Errors.Anchor (Errors.new_DatabaseError "Database error" None)).
Proof.
  split; [reflexivity|].
  apply (production_response_ignores_original_error (Some "production")
           Errors.DatabaseErrorClass "Database error" Errors.DATABASE_ERROR 500
           (Some "DATABASE_ERROR") None).
  reflexivity.
Defined.

(** X21: in production a [RailError], a [DatabaseError] and a [NetworkError]
    built by their constructors get a fixed response, with the status of
    the class (502, 500, 503) and a generic message: neither the message
    given to the constructor nor the original error shows. *)
Theorem production_masks_infrastructure_errors
    (env : option string) (message : string) (original : option Errors.Error.t) :
  Errors.isProduction env = true ->
  Errors.errorHandler env (Errors.Anchor (Errors.new_RailError message original))
  = {| Errors.Handled.statusCode := 502;
       Errors.Handled.response :=
         {| Errors.ErrorResponse.type := Errors.RAIL_ERROR;
            Errors.ErrorResponse.message := "Payment rail service unavailable";
            Errors.ErrorResponse.code := Some "RAIL_ERROR";
            Errors.ErrorResponse.details := None |} |} /\
  Errors.errorHandler env (Errors.Anchor (Errors.new_DatabaseError message original))
  = {| Errors.Handled.statusCode := 500;
       Errors.Handled.response :=
         {| Errors.ErrorResponse.type := Errors.DATABASE_ERROR;
            Errors.ErrorResponse.message := "Service temporarily unavailable";
            Errors.ErrorResponse.code := None;
            Errors.ErrorResponse.details := None |} |} /\
  Errors.errorHandler env (Errors.Anchor (Errors.new_NetworkError message original))
  = {| Errors.Handled.statusCode := 503;
       Errors.Handled.response :=
         {| Errors.ErrorResponse.type := Errors.NETWORK_ERROR;
            Errors.ErrorResponse.message := "Service temporarily unavailable";
            Errors.ErrorResponse.code := None;
            Errors.ErrorResponse.details := None |} |}.
Proof.
  intros P. unfold Errors.errorHandler, Errors.handleAnchorError.
  cbn [Errors.new_RailError Errors.new_DatabaseError Errors.new_NetworkError
       Errors.AnchorError.type Errors.AnchorError.statusCode
       Errors.AnchorError.code Errors.instanceof_RailError
       Errors.AnchorError.cls].
  rewrite P. repeat split.
Qed.

(** X21 on a concrete input *)
Lemma production_masks_infrastructure_errors_witness :
  Errors.isProduction (Some "production") = true /\
  Errors.ErrorResponse.message
    (Errors.Handled.response
       (Errors.errorHandler (Some "production")
          (Errors.Anchor
             (Errors.new_RailError "bank API key expired"
                (Some {| Errors.Error.message := "401 from bank" |})))))
  = "Payment rail service unavailable".
Proof.
  split; [reflexivity|].
  rewrite (proj1 (production_masks_infrastructure_errors (Some "production")
                    "bank API key expired"
                    (Some {| Errors.Error.message := "401 from bank" |})
                    eq_refl)).
  reflexivity.
Defined.

(** X22: an error of type [RAIL_ERROR] that is not an instance of [RailError] is
    never masked: in every environment, production included, the response
    carries the message and the code of the error as they are, and no
    details. *)
Theorem rail_type_of_another_class_is_not_masked
    (env : option string) (error : Errors.AnchorError.t) :
  Errors.AnchorError.type error = Errors.RAIL_ERROR ->
  Errors.instanceof_RailError error = false ->
  Errors.errorHandler env (Errors.Anchor error)
  = {| Errors.Handled.statusCode := Errors.AnchorError.statusCode error;
       Errors.Handled.response :=
         {| Errors.ErrorResponse.type := Errors.RAIL_ERROR;
            Errors.ErrorResponse.message := Errors.AnchorError.message error;
            Errors.ErrorResponse.code := Errors.AnchorError.code error;
            Errors.ErrorResponse.details := None |} |}.
Proof.
  intros T C. unfold Errors.errorHandler, Errors.handleAnchorError.
  rewrite T, C, andb_false_r. reflexivity.
Qed.

(** X22 on a concrete input *)
Lemma rail_type_of_another_class_is_not_masked_witness :
  Errors.errorHandler (Some "production")
    (Errors.Anchor
       (Errors.new_AnchorError "bank API key expired" Errors.RAIL_ERROR
          (Some 502) (Some "RAIL_ERROR") None))
  = {| Errors.Handled.statusCode := 502;
       Errors.Handled.response :=
         {| Errors.ErrorResponse.type := Errors.RAIL_ERROR;
            Errors.ErrorResponse.message := "bank API key expired";
            Errors.ErrorResponse.code := Some "RAIL_ERROR";
            Errors.ErrorResponse.details := None |} |}.
Proof.
  apply (rail_type_of_another_class_is_not_masked (Some "production")
           (Errors.new_AnchorError "bank API key expired" Errors.RAIL_ERROR
              (Some 502) (Some "RAIL_ERROR") None)); reflexivity.
Defined.

(** X23: the response to an [AnchorError] carries the type of the error, and its
    status is the status code of the error, but for the type [UNKNOWN],
    answered with 500 whatever the status code of the error; what is not an
    [AnchorError] is answered with 500 and the type [UNKNOWN]. *)
Theorem handled_status_and_type (env : option string) :
  (forall error : Errors.AnchorError.t,
      Errors.ErrorResponse.type
        (Errors.Handled.response (Errors.errorHandler env (Errors.Anchor error)))
      = Errors.AnchorError.type error /\
      Errors.Handled.statusCode (Errors.errorHandler env (Errors.Anchor error))
      = match Errors.AnchorError.type error with
        | Errors.UNKNOWN => 500
        | _ => Errors.AnchorError.statusCode error
        end) /\
  (forall error : Errors.Error.t,
      Errors.ErrorResponse.type
        (Errors.Handled.response (Errors.errorHandler env (Errors.Plain error)))
      = Errors.UNKNOWN /\
      Errors.Handled.statusCode (Errors.errorHandler env (Errors.Plain error)) = 500) /\
  (forall value : Errors.unknown,
      Errors.ErrorResponse.type
        (Errors.Handled.response (Errors.errorHandler env (Errors.NotAnError value)))
      = Errors.UNKNOWN /\
      Errors.Handled.statusCode (Errors.errorHandler env (Errors.NotAnError value))
      = 500).
Proof.
  repeat split.
  - unfold Errors.errorHandler, Errors.handleAnchorError.
    destruct (Errors.AnchorError.type error) eqn:T; try reflexivity;
      destruct (Errors.isProduction env); cbn [andb];
      try destruct (Errors.instanceof_RailError error); reflexivity.
  - unfold Errors.errorHandler, Errors.handleAnchorError.
    destruct (Errors.AnchorError.type error) eqn:T; try reflexivity;
      destruct (Errors.isProduction env); cbn [andb];
      try destruct (Errors.instanceof_RailError error); reflexivity.
Qed.

(** X24: outside production nothing is masked: the response to an
    [AnchorError] whose type is not [UNKNOWN] carries the message and the
    code of the error. *)
Theorem development_response_echoes_error
    (env : option string) (error : Errors.AnchorError.t) :
  Errors.isProduction env = false ->
  Errors.AnchorError.type error <> Errors.UNKNOWN ->
  Errors.ErrorResponse.message
    (Errors.Handled.response (Errors.errorHandler env (Errors.Anchor error)))
  = Errors.AnchorError.message error /\
  Errors.ErrorResponse.code
    (Errors.Handled.response (Errors.errorHandler env (Errors.Anchor error)))
  = Errors.AnchorError.code error.
Proof.
  intros P T. unfold Errors.errorHandler, Errors.handleAnchorError.
  rewrite P. cbn [andb].
  destruct (Errors.AnchorError.type error); try contradiction; split; reflexivity.
Qed.

(** X24 on a concrete input *)
Lemma development_response_echoes_error_witness :
  Errors.isProduction (Some "development") = false /\
  Errors.ErrorResponse.message
    (Errors.Handled.response
       (Errors.errorHandler (Some "development")
          (Errors.Anchor (Errors.new_NetworkError "DNS lookup failed" None))))
  = "DNS lookup failed".
Proof.
  split; [reflexivity|].
  apply (development_response_echoes_error (Some "development")
           (Errors.new_NetworkError "DNS lookup failed" None));
    [reflexivity | discriminate].
Defined.

(** X25: the environment changes the response to the errors of type
    [RAIL_ERROR], [DATABASE_ERROR] and [NETWORK_ERROR] only: every other
    thrown value gets the same response in any two environments. *)
Theorem environment_matters_for_infrastructure_errors_only
    (env env' : option string) :
  (forall error : Errors.AnchorError.t,
      Errors.AnchorError.type error = Errors.SEP_PROTOCOL \/
      Errors.AnchorError.type error = Errors.VALIDATION_ERROR \/
      Errors.AnchorError.type error = Errors.UNKNOWN ->
      Errors.errorHandler env (Errors.Anchor error)
      = Errors.errorHandler env' (Errors.Anchor error)) /\
  (forall error : Errors.Error.t,
      Errors.errorHandler env (Errors.Plain error)
      = Errors.errorHandler env' (Errors.Plain error)) /\
  (forall value : Errors.unknown,
      Errors.errorHandler env (Errors.NotAnError value)
      = Errors.errorHandler env' (Errors.NotAnError value)).
Proof.
  repeat split. intros error [T|[T|T]];
    unfold Errors.errorHandler, Errors.handleAnchorError; now rewrite T.
Qed.


(** * The big.js variant: the other operations *)

Section BigArithmetic.
Import BigJs.

Lemma parse_canonical (n : string) (x : Big) : parse n = Ok x -> canonical x.
Proof.
  intros H. destruct (JS.test NUMERIC n) eqn:T.
  - destruct (parse_test n T) as (x' & E & C). congruence.
  - unfold parse in H. rewrite T in H. discriminate.
Qed.

Lemma pow10n_sub (p k : nat) : (p <= k)%nat -> pow10n (k - p) * pow10n p = pow10n k.
Proof. intros H. rewrite <- pow10n_add. f_equal. lia. Qed.

Lemma pow10n_mod_10 (k : nat) : pow10n (S k) mod 10 = 0.
Proof. rewrite pow10n_S, Z.mul_comm. apply Z.mod_mul. lia. Qed.

(** a decimal has one [Big] without trailing fractional zeros *)
Lemma canonical_unique (x y : Big) :
  canonical x -> canonical y ->
  unscaled x * pow10n (places y) = unscaled y * pow10n (places x) ->
  x = y.
Proof.
  assert (W : forall x y : Big,
             canonical y -> (places x < places y)%nat ->
             unscaled x * pow10n (places y) = unscaled y * pow10n (places x) ->
             False).
  { clear. intros [ux px] [uy py]. unfold canonical. cbn [unscaled places].
    intros Cy L E.
    destruct Cy as [Cy|Cy]; [lia|]. apply Cy.
    rewrite <- (pow10n_sub px py) in E by lia.
    pose proof (pow10n_pos px) as P.
    assert (E' : uy = ux * pow10n (py - px)) by nia.
    rewrite E'. destruct (py - px)%nat as [|d] eqn:D; [lia|].
    rewrite pow10n_S.
    replace (ux * (10 * pow10n d)) with (ux * pow10n d * 10) by ring.
    apply Z.mod_mul. lia. }
  intros Cx Cy E.
  destruct (Nat.lt_trichotomy (places x) (places y)) as [L|[L|L]].
  - exfalso. exact (W x y Cy L E).
  - destruct x as [ux px], y as [uy py]. cbn [unscaled places] in *. subst py.
    pose proof (pow10n_pos px). f_equal. nia.
  - exfalso. exact (W y x Cx L (eq_sym E)).
Qed.

Lemma plus_represents (x y : Big) :
  represents (plus x y)
    (unscaled x * pow10n (places y) + unscaled y * pow10n (places x))
    (places x + places y).
Proof.
  unfold plus. set (k := Nat.max (places x) (places y)).
  set (m := unscaled x * pow10n (k - places x) + unscaled y * pow10n (k - places y)).
  pose proof (strip_represents k m) as R. unfold represents in *.
  set (r := strip m k) in *.
  pose proof (pow10n_sub (places x) k ltac:(subst k; lia)) as Kx.
  pose proof (pow10n_sub (places y) k ltac:(subst k; lia)) as Ky.
  pose proof (pow10n_pos k) as Pk.
  rewrite pow10n_add.
  apply (Z.mul_reg_r _ _ (pow10n k)); [lia|].
  transitivity (unscaled r * pow10n k * (pow10n (places x) * pow10n (places y)));
    [ring|].
  rewrite R. subst m.
  transitivity
    ((unscaled x * (pow10n (k - places x) * pow10n (places x)) * pow10n (places y)
      + unscaled y * (pow10n (k - places y) * pow10n (places y)) * pow10n (places x))
     * pow10n (places r)); [ring|].
  rewrite Kx, Ky. ring.
Qed.

Lemma minus_represents (x y : Big) :
  represents (minus x y)
    (unscaled x * pow10n (places y) - unscaled y * pow10n (places x))
    (places x + places y).
Proof.
  unfold minus. set (k := Nat.max (places x) (places y)).
  set (m := unscaled x * pow10n (k - places x) - unscaled y * pow10n (k - places y)).
  pose proof (strip_represents k m) as R. unfold represents in *.
  set (r := strip m k) in *.
  pose proof (pow10n_sub (places x) k ltac:(subst k; lia)) as Kx.
  pose proof (pow10n_sub (places y) k ltac:(subst k; lia)) as Ky.
  pose proof (pow10n_pos k) as Pk.
  rewrite pow10n_add.
  apply (Z.mul_reg_r _ _ (pow10n k)); [lia|].
  transitivity (unscaled r * pow10n k * (pow10n (places x) * pow10n (places y)));
    [ring|].
  rewrite R. subst m.
  transitivity
    ((unscaled x * (pow10n (k - places x) * pow10n (places x)) * pow10n (places y)
      - unscaled y * (pow10n (k - places y) * pow10n (places y)) * pow10n (places x))
     * pow10n (places r)); [ring|].
  rewrite Kx, Ky. ring.
Qed.

Lemma minus_plus (x y : Big) : canonical x -> minus (plus x y) y = x.
Proof.
  intros C. apply canonical_unique; [apply strip_canonical | exact C |].
  pose proof (plus_represents x y) as R1.
  pose proof (minus_represents (plus x y) y) as R2.
  unfold represents in *. set (s := plus x y) in *. set (r := minus s y) in *.
  rewrite !pow10n_add in *.
  pose proof (pow10n_pos (places x)) as Px.
  pose proof (pow10n_pos (places y)) as Py.
  pose proof (pow10n_pos (places s)) as Ps.
  pose proof (pow10n_pos (places r)) as Pr.
  apply (Z.mul_reg_r _ _ (pow10n (places s) * pow10n (places y) * pow10n (places y)));
    [nia|].
  transitivity (unscaled r * (pow10n (places s) * pow10n (places y))
                * (pow10n (places x) * pow10n (places y))); [ring|].
  rewrite R2.
  transitivity ((unscaled s * (pow10n (places x) * pow10n (places y)) * pow10n (places y)
                 - unscaled y * pow10n (places s) * (pow10n (places x) * pow10n (places y)))
                * pow10n (places r)); [ring|].
  rewrite R1. ring.
Qed.

End BigArithmetic.

(** X26: in the big.js variant adding an operand and subtracting it again gives
    back the first operand, in normal notation without trailing zeros:
    [subtract(add(a, b), b)] is [new Big(a).toFixed()], a string that reads
    back as [new Big(a)]. *)
Theorem big_add_subtract_round_trip (a b : string) (x y : BigJs.Big) :
  BigJs.parse a = Ok x -> BigJs.parse b = Ok y ->
  exists sum,
    DecimalUtils.add a b = Ok sum /\
    DecimalUtils.subtract sum b = Ok (BigJs.toFixed x) /\
    BigJs.parse (BigJs.toFixed x) = Ok x.
Proof.
  intros Pa Pb. exists (BigJs.toFixed (BigJs.plus x y)).
  pose proof (parse_canonical a x Pa) as Cx.
  split; [|split].
  - unfold DecimalUtils.add. now rewrite Pa, Pb.
  - unfold DecimalUtils.subtract.
    rewrite (toFixed_parse (BigJs.plus x y)) by apply strip_canonical.
    rewrite Pb. cbn [bind]. now rewrite minus_plus.
  - now apply toFixed_parse.
Qed.

(** X26 on a concrete input *)
Lemma big_add_subtract_round_trip_witness :
  BigJs.parse "12.50" = Ok {| BigJs.unscaled := 125; BigJs.places := 1 |} /\
  BigJs.parse "-0.75" = Ok {| BigJs.unscaled := -75; BigJs.places := 2 |} /\
  exists sum,
    DecimalUtils.add "12.50" "-0.75" = Ok sum /\
    DecimalUtils.subtract sum "-0.75"
    = Ok (BigJs.toFixed {| BigJs.unscaled := 125; BigJs.places := 1 |}) /\
    BigJs.parse (BigJs.toFixed {| BigJs.unscaled := 125; BigJs.places := 1 |})
    = Ok {| BigJs.unscaled := 125; BigJs.places := 1 |}.
Proof.
  split; [reflexivity|]. split; [reflexivity|].
  apply (big_add_subtract_round_trip "12.50" "-0.75"
           {| BigJs.unscaled := 125; BigJs.places := 1 |}
           {| BigJs.unscaled := -75; BigJs.places := 2 |}); reflexivity.
Defined.

(** X27: in the big.js variant [add], [subtract] and [multiply] are exact: the
    result is the normal notation of a [Big] without trailing zeros whose
    value is the sum, the difference, the product of the two operands. *)
Theorem big_arithmetic_exact (a b : string) (x y : BigJs.Big) :
  BigJs.parse a = Ok x -> BigJs.parse b = Ok y ->
  (exists r, DecimalUtils.add a b = Ok (BigJs.toFixed r) /\ canonical r /\
             represents r
               (BigJs.unscaled x * BigJs.pow10n (BigJs.places y)
                + BigJs.unscaled y * BigJs.pow10n (BigJs.places x))
               (BigJs.places x + BigJs.places y)) /\
  (exists r, DecimalUtils.subtract a b = Ok (BigJs.toFixed r) /\ canonical r /\
             represents r
               (BigJs.unscaled x * BigJs.pow10n (BigJs.places y)
                - BigJs.unscaled y * BigJs.pow10n (BigJs.places x))
               (BigJs.places x + BigJs.places y)) /\
  (exists r, DecimalUtils.multiply a b = Ok (BigJs.toFixed r) /\ canonical r /\
             represents r (BigJs.unscaled x * BigJs.unscaled y)
               (BigJs.places x + BigJs.places y)).
Proof.
  intros Pa Pb.
  unfold DecimalUtils.add, DecimalUtils.subtract, DecimalUtils.multiply.
  rewrite Pa, Pb. cbn [bind]. repeat split.
  - exists (BigJs.plus x y).
    repeat split; [apply strip_canonical | apply plus_represents].
  - exists (BigJs.minus x y).
    repeat split; [apply strip_canonical | apply minus_represents].
  - exists (BigJs.times x y).
    repeat split; [apply times_canonical | apply times_represents].
Qed.

(** X27 on a concrete input *)
Lemma big_arithmetic_exact_witness :
  BigJs.parse "0.1" = Ok {| BigJs.unscaled := 1; BigJs.places := 1 |} /\
  BigJs.parse "0.2" = Ok {| BigJs.unscaled := 2; BigJs.places := 1 |} /\
  exists r, DecimalUtils.add "0.1" "0.2" = Ok (BigJs.toFixed r) /\ canonical r /\
            represents r (1 * BigJs.pow10n 1 + 2 * BigJs.pow10n 1) (1 + 1).
Proof.
  split; [reflexivity|]. split; [reflexivity|].
  apply (proj1 (big_arithmetic_exact "0.1" "0.2"
                  {| BigJs.unscaled := 1; BigJs.places := 1 |}
                  {| BigJs.unscaled := 2; BigJs.places := 1 |}
                  eq_refl eq_refl)).
Defined.


